(** * SPOS scheduler core: a shallow embedding and its properties

    The development follows [os_scheduler.c] (process table, program
    registry, critical sections, [os_exec], the timer ISR) and
    [os_input.c] (button reader).  Global variables of the C code become
    fields of one state record that every function threads explicitly.
    Eight-bit and sixteen-bit C integers are integers of [Z] with the
    wrap-around written out. *)

From Stdlib Require Import ZArith Lia Bool String.
From stdpp Require Import base list.

Local Open Scope Z_scope.

(** ** Machine integers *)

Definition wrap8 (z : Z) : Z := z mod 256.
Definition wrap16 (z : Z) : Z := z mod 65536.

(** ** os_input.c *)

(** [os_getInput] as a function of the value read from [PINC].  The
    complement of the promoted [int] is the two's-complement [Z.lnot];
    the mask brings the value back into eight bits. *)
Definition os_getInput (PINC : Z) : Z :=
  let a := Z.land (Z.lnot PINC) 195 (* 0b11000011 *) in
  let b := Z.land a 192 (* 0b11000000 *) in
  let b := Z.shiftr b 4 in
  let a := Z.lor a b in
  a.

(** ** Types of os_process.h and os_scheduler.h *)

Inductive ProcessState :=
  | OS_PS_UNUSED | OS_PS_READY | OS_PS_RUNNING | OS_PS_BLOCKED.

Inductive SchedulingStrategy :=
  | OS_SS_EVEN | OS_SS_RANDOM | OS_SS_RUN_TO_COMPLETION
  | OS_SS_ROUND_ROBIN | OS_SS_INACTIVE_AGING.

#[global] Instance ProcessState_eq_dec : EqDecision ProcessState.
Proof. solve_decision. Defined.

#[global] Instance SchedulingStrategy_eq_dec : EqDecision SchedulingStrategy.
Proof. solve_decision. Defined.

(** [ProcessID] and [ProgramID] are [uint8_t]; every index the code forms
    is bounded by a table capacity of at most 255 (see [Defines]), so
    they are natural numbers here.  [Priority] is a byte, [StackPointer]
    a sixteen-bit address, [Program*] a sixteen-bit code address with
    [NULL] as zero. *)
Abbreviation ProcessID := nat (only parsing).
Abbreviation ProgramID := nat (only parsing).

Record Process := {
  state : ProcessState;
  priority : Z;
  progID : ProgramID;
  sp : Z
}.

Definition NULL : Z := 0.

(** The constants of defines.h, which is not part of the sources at
    hand: they are parameters, constrained only by what the types of the
    code need (both ids are bytes, the sentinels lie outside the
    tables, and there is a slot for the idle process). *)
Class Defines := {
  MAX_NUMBER_OF_PROCESSES : nat;
  MAX_NUMBER_OF_PROGRAMS : nat;
  INVALID_PROCESS : ProcessID;
  INVALID_PROGRAM : ProgramID;
  DEFAULT_PRIORITY : Z;
  BOTTOM_OF_ISR_STACK : Z;
  PROCESS_STACK_BOTTOM : ProcessID -> Z;
  processes_fit : (0 < MAX_NUMBER_OF_PROCESSES <= INVALID_PROCESS)%nat /\ (INVALID_PROCESS <= 255)%nat;
  programs_fit : (MAX_NUMBER_OF_PROGRAMS <= INVALID_PROGRAM <= 255)%nat
}.

(** The selectors of os_scheduling_strategies.c, external to the
    scheduler core: each maps the process table and the current process
    to the next process. *)
Class Strategies := {
  os_Scheduler_Even : list Process -> ProcessID -> ProcessID;
  os_Scheduler_Random : list Process -> ProcessID -> ProcessID;
  os_Scheduler_RoundRobin : list Process -> ProcessID -> ProcessID;
  os_Scheduler_InactiveAging : list Process -> ProcessID -> ProcessID;
  os_Scheduler_RunToCompletion : list Process -> ProcessID -> ProcessID
}.

(** ** Observable steps *)

(** The state carries a history of the steps whose order matters, of the
    calls to collaborators and of the accesses to the program array. *)
Inductive Event :=
  | EvSaveContext (stack : Z)
  | EvRestoreContext (stack : Z)
  | EvStoreSP (pid : ProcessID) (cursor : Z)
  | EvSetSP (cursor : Z)
  | EvSetState (pid : ProcessID) (s : ProcessState)
  | EvSelect (which : SchedulingStrategy) (table : list Process) (cur : ProcessID)
  | EvError (msg : string)
  | EvProgRead (slot : nat)
  | EvProgWrite (slot : nat).

(** ** Global state *)

(** [sram] is the stack memory, addressed by sixteen-bit addresses; the
    global variables are fields of their own, so a write to a stack never
    reaches them (the linker keeps the stack regions apart from the data
    section). *)
Record OS := {
  os_processes : list Process;
  os_programs : list Z;
  (** the word that follows [os_programs] in memory *)
  past_programs : Z;
  currentProc : ProcessID;
  currentSchedulingStrategy : SchedulingStrategy;
  criticalSectionCount : Z;
  os_autostart : Z;
  SREG : Z;
  TIMSK2 : Z;
  SP : Z;
  PS : Z;
  PC : Z;
  regs : list Z;
  sram : Z -> Z;
  trace : list Event
}.

Definition set_os_processes (v : list Process) (st : OS) : OS :=
  {| os_processes := v; os_programs := os_programs st;
     past_programs := past_programs st; currentProc := currentProc st;
     currentSchedulingStrategy := currentSchedulingStrategy st;
     criticalSectionCount := criticalSectionCount st;
     os_autostart := os_autostart st; SREG := SREG st; TIMSK2 := TIMSK2 st;
     SP := SP st; PS := PS st; PC := PC st; regs := regs st;
     sram := sram st; trace := trace st |}.

Definition set_os_programs (v : list Z) (st : OS) : OS :=
  {| os_processes := os_processes st; os_programs := v;
     past_programs := past_programs st; currentProc := currentProc st;
     currentSchedulingStrategy := currentSchedulingStrategy st;
     criticalSectionCount := criticalSectionCount st;
     os_autostart := os_autostart st; SREG := SREG st; TIMSK2 := TIMSK2 st;
     SP := SP st; PS := PS st; PC := PC st; regs := regs st;
     sram := sram st; trace := trace st |}.

Definition set_currentProc (v : ProcessID) (st : OS) : OS :=
  {| os_processes := os_processes st; os_programs := os_programs st;
     past_programs := past_programs st; currentProc := v;
     currentSchedulingStrategy := currentSchedulingStrategy st;
     criticalSectionCount := criticalSectionCount st;
     os_autostart := os_autostart st; SREG := SREG st; TIMSK2 := TIMSK2 st;
     SP := SP st; PS := PS st; PC := PC st; regs := regs st;
     sram := sram st; trace := trace st |}.

Definition set_currentSchedulingStrategy (v : SchedulingStrategy) (st : OS) : OS :=
  {| os_processes := os_processes st; os_programs := os_programs st;
     past_programs := past_programs st; currentProc := currentProc st;
     currentSchedulingStrategy := v;
     criticalSectionCount := criticalSectionCount st;
     os_autostart := os_autostart st; SREG := SREG st; TIMSK2 := TIMSK2 st;
     SP := SP st; PS := PS st; PC := PC st; regs := regs st;
     sram := sram st; trace := trace st |}.

Definition set_criticalSectionCount (v : Z) (st : OS) : OS :=
  {| os_processes := os_processes st; os_programs := os_programs st;
     past_programs := past_programs st; currentProc := currentProc st;
     currentSchedulingStrategy := currentSchedulingStrategy st;
     criticalSectionCount := v;
     os_autostart := os_autostart st; SREG := SREG st; TIMSK2 := TIMSK2 st;
     SP := SP st; PS := PS st; PC := PC st; regs := regs st;
     sram := sram st; trace := trace st |}.

Definition set_SREG (v : Z) (st : OS) : OS :=
  {| os_processes := os_processes st; os_programs := os_programs st;
     past_programs := past_programs st; currentProc := currentProc st;
     currentSchedulingStrategy := currentSchedulingStrategy st;
     criticalSectionCount := criticalSectionCount st;
     os_autostart := os_autostart st; SREG := v; TIMSK2 := TIMSK2 st;
     SP := SP st; PS := PS st; PC := PC st; regs := regs st;
     sram := sram st; trace := trace st |}.

Definition set_TIMSK2 (v : Z) (st : OS) : OS :=
  {| os_processes := os_processes st; os_programs := os_programs st;
     past_programs := past_programs st; currentProc := currentProc st;
     currentSchedulingStrategy := currentSchedulingStrategy st;
     criticalSectionCount := criticalSectionCount st;
     os_autostart := os_autostart st; SREG := SREG st; TIMSK2 := v;
     SP := SP st; PS := PS st; PC := PC st; regs := regs st;
     sram := sram st; trace := trace st |}.

Definition set_SP (v : Z) (st : OS) : OS :=
  {| os_processes := os_processes st; os_programs := os_programs st;
     past_programs := past_programs st; currentProc := currentProc st;
     currentSchedulingStrategy := currentSchedulingStrategy st;
     criticalSectionCount := criticalSectionCount st;
     os_autostart := os_autostart st; SREG := SREG st; TIMSK2 := TIMSK2 st;
     SP := v; PS := PS st; PC := PC st; regs := regs st;
     sram := sram st; trace := trace st |}.

Definition set_PS (v : Z) (st : OS) : OS :=
  {| os_processes := os_processes st; os_programs := os_programs st;
     past_programs := past_programs st; currentProc := currentProc st;
     currentSchedulingStrategy := currentSchedulingStrategy st;
     criticalSectionCount := criticalSectionCount st;
     os_autostart := os_autostart st; SREG := SREG st; TIMSK2 := TIMSK2 st;
     SP := SP st; PS := v; PC := PC st; regs := regs st;
     sram := sram st; trace := trace st |}.

Definition set_PC (v : Z) (st : OS) : OS :=
  {| os_processes := os_processes st; os_programs := os_programs st;
     past_programs := past_programs st; currentProc := currentProc st;
     currentSchedulingStrategy := currentSchedulingStrategy st;
     criticalSectionCount := criticalSectionCount st;
     os_autostart := os_autostart st; SREG := SREG st; TIMSK2 := TIMSK2 st;
     SP := SP st; PS := PS st; PC := v; regs := regs st;
     sram := sram st; trace := trace st |}.

Definition set_regs (v : list Z) (st : OS) : OS :=
  {| os_processes := os_processes st; os_programs := os_programs st;
     past_programs := past_programs st; currentProc := currentProc st;
     currentSchedulingStrategy := currentSchedulingStrategy st;
     criticalSectionCount := criticalSectionCount st;
     os_autostart := os_autostart st; SREG := SREG st; TIMSK2 := TIMSK2 st;
     SP := SP st; PS := PS st; PC := PC st; regs := v;
     sram := sram st; trace := trace st |}.

Definition set_sram (v : Z -> Z) (st : OS) : OS :=
  {| os_processes := os_processes st; os_programs := os_programs st;
     past_programs := past_programs st; currentProc := currentProc st;
     currentSchedulingStrategy := currentSchedulingStrategy st;
     criticalSectionCount := criticalSectionCount st;
     os_autostart := os_autostart st; SREG := SREG st; TIMSK2 := TIMSK2 st;
     SP := SP st; PS := PS st; PC := PC st; regs := regs st;
     sram := v; trace := trace st |}.

Definition emit (e : Event) (st : OS) : OS :=
  {| os_processes := os_processes st; os_programs := os_programs st;
     past_programs := past_programs st; currentProc := currentProc st;
     currentSchedulingStrategy := currentSchedulingStrategy st;
     criticalSectionCount := criticalSectionCount st;
     os_autostart := os_autostart st; SREG := SREG st; TIMSK2 := TIMSK2 st;
     SP := SP st; PS := PS st; PC := PC st; regs := regs st;
     sram := sram st; trace := trace st ++ [e] |}.

(** ** Memory and the hardware stack *)

Definition mem_write (a v : Z) (m : Z -> Z) : Z -> Z :=
  fun a' => if a' =? a then v else m a'.

(** AVR push: store at [SP], then decrement; pop: increment, then load. *)
Definition push (v : Z) (st : OS) : OS :=
  set_SP (wrap16 (SP st - 1)) (set_sram (mem_write (SP st) v (sram st)) st).

Definition pop (st : OS) : Z * OS :=
  let st := set_SP (wrap16 (SP st + 1)) st in
  (sram st (SP st), st).

Fixpoint push_bytes (bs : list Z) (st : OS) : OS :=
  match bs with
  | [] => st
  | b :: bs' => push_bytes bs' (push b st)
  end.

Fixpoint pop_bytes (n : nat) (st : OS) : list Z * OS :=
  match n with
  | O => ([], st)
  | S n' =>
      let '(b, st) := pop st in
      let '(bs, st) := pop_bytes n' st in
      (b :: bs, st)
  end.

(** Modelled from the spec: [saveContext] is a macro of a header that is
    not at hand.  Section 4.3: it pushes the complete register file and
    the status flags onto the active stack in a fixed order and size
    (the status register, then the 32 registers: 33 bytes). *)
Definition saveContext (st : OS) : OS :=
  emit (EvSaveContext (SP st)) (push_bytes (SREG st :: regs st) st).

(** Modelled from the spec: [restoreContext] is a macro of a header that
    is not at hand.  Section 4.3: it pops that same block back into the
    registers and the status flags, then returns to the point of the
    interruption, which takes the two-byte return address off the stack
    (high byte first). *)
Definition restoreContext (st : OS) : OS :=
  let st := emit (EvRestoreContext (SP st)) st in
  let '(bs, st) := pop_bytes 33 st in
  let ctx := reverse bs in
  let st := set_regs (tail ctx) (set_SREG (hd 0 ctx) st) in
  let '(hi, st) := pop st in
  let '(lo, st) := pop st in
  set_PC (hi * 256 + lo) st.

(** Modelled from the spec: [os_errorPStr] belongs to the error-reporting
    collaborator (section 6), which accepts a message for a fatal
    condition; here it records the message. *)
Definition os_errorPStr (msg : string) (st : OS) : OS := emit (EvError msg) st.

(** ** Process table and program registry accessors *)

Definition with_state (s : ProcessState) (p : Process) : Process :=
  {| state := s; priority := priority p; progID := progID p; sp := sp p |}.
Definition with_priority (v : Z) (p : Process) : Process :=
  {| state := state p; priority := v; progID := progID p; sp := sp p |}.
Definition with_progID (v : ProgramID) (p : Process) : Process :=
  {| state := state p; priority := priority p; progID := v; sp := sp p |}.
Definition with_sp (v : Z) (p : Process) : Process :=
  {| state := state p; priority := priority p; progID := progID p; sp := v |}.

Definition zero_slot : Process :=
  {| state := OS_PS_UNUSED; priority := 0; progID := O; sp := 0 |}.

(** [os_processes[pid]] as an rvalue.  A read outside the table has no
    defined value in C; it yields a zeroed slot here, and every theorem
    below bounds the indices it reads. *)
Definition os_getProcessSlot (pid : ProcessID) (st : OS) : Process :=
  default zero_slot (os_processes st !! pid).

(** [os_processes[pid].field = v].  A write outside the table changes no
    slot here (in C it would hit other memory); the theorems bound the
    indices. *)
Definition update_slot (pid : ProcessID) (f : Process -> Process) (st : OS) : OS :=
  set_os_processes (alter f pid (os_processes st)) st.

Definition write_state (pid : ProcessID) (s : ProcessState) (st : OS) : OS :=
  emit (EvSetState pid s) (update_slot pid (with_state s) st).

Definition store_sp (pid : ProcessID) (v : Z) (st : OS) : OS :=
  emit (EvStoreSP pid v) (update_slot pid (with_sp v) st).

Definition write_SP (v : Z) (st : OS) : OS := emit (EvSetSP v) (set_SP v st).

(** [os_programs[slot]] read; past the end of the array the read yields
    the word stored behind it. *)
Definition read_program (slot : nat) (st : OS) : Z * OS :=
  (match os_programs st !! slot with
   | Some p => p
   | None => past_programs st
   end, emit (EvProgRead slot) st).

Definition write_program (slot : nat) (p : Z) (st : OS) : OS :=
  emit (EvProgWrite slot) (set_os_programs (<[slot := p]> (os_programs st)) st).

Definition os_getCurrentProc (st : OS) : ProcessID := currentProc st.

Definition os_setSchedulingStrategy (strategy : SchedulingStrategy) (st : OS) : OS :=
  set_currentSchedulingStrategy strategy st.

Definition os_getSchedulingStrategy (st : OS) : SchedulingStrategy :=
  currentSchedulingStrategy st.

(** ** Critical sections *)

Definition os_enterCriticalSection (st : OS) : OS :=
  let GlobalInterruptEnableBit := Z.land (SREG st) 128 in
  let st := set_SREG (Z.land (SREG st) 127) st in
  let st := set_criticalSectionCount (wrap8 (criticalSectionCount st + 1)) st in
  let st := set_TIMSK2 (Z.land (TIMSK2 st) 253) st in
  set_SREG (Z.lor (SREG st) GlobalInterruptEnableBit) st.

(** [criticalSectionCount] is a [uint8_t]: the decrement wraps, and the
    comparison with zero is made on the promoted, non-negative value. *)
Definition os_leaveCriticalSection (st : OS) : OS :=
  let GlobalInterruptEnableBit := Z.land (SREG st) 128 in
  let st := set_SREG (Z.land (SREG st) 127) st in
  let st := set_criticalSectionCount (wrap8 (criticalSectionCount st - 1)) st in
  let st :=
    if criticalSectionCount st <? 0 then
      os_errorPStr "Zu oft os_leaveCriticalSection aufgerufen" st
    else if criticalSectionCount st =? 0 then
      set_TIMSK2 (Z.lor (TIMSK2 st) 2) st
    else st in
  set_SREG (Z.lor (SREG st) GlobalInterruptEnableBit) st.

(** The scheduler's interrupt source is the OCIE2A bit (bit 1) of TIMSK2. *)
Definition scheduler_masked (st : OS) : bool := negb (Z.testbit (TIMSK2 st) 1).

Section Scheduler.
Context `{D : Defines} `{Strat : Strategies}.

(** ** Program registry *)

(** The loop of [os_registerProgram].  Its condition reads
    [os_programs[slot]] twice and tests [slot < MAX_NUMBER_OF_PROGRAMS]
    last, each conjunct only if the ones before it hold.  [fuel] bounds
    the iterations; [None] means it ran out. *)
Fixpoint os_registerProgram_loop (fuel : nat) (program : Z) (slot : ProgramID)
    (st : OS) : option (ProgramID * OS) :=
  let '(p1, st) := read_program slot st in
  if p1 =? NULL then Some (slot, st) else
  let '(p2, st) := read_program slot st in
  if p2 =? program then Some (slot, st) else
  if (slot <? MAX_NUMBER_OF_PROGRAMS)%nat then
    match fuel with
    | O => None
    | S fuel' => os_registerProgram_loop fuel' program (S slot) st
    end
  else Some (slot, st).

Definition os_registerProgram (program : Z) (st : OS) : option (ProgramID * OS) :=
  match os_registerProgram_loop MAX_NUMBER_OF_PROGRAMS program O st with
  | None => None
  | Some (slot, st) =>
      if (MAX_NUMBER_OF_PROGRAMS <=? slot)%nat then Some (INVALID_PROGRAM, st)
      else Some (slot, write_program slot program st)
  end.

Definition os_checkAutostartProgram (programID : ProgramID) (st : OS) : bool :=
  negb (Z.land (os_autostart st) (Z.shiftl 1 (Z.of_nat programID)) =? 0).

Definition os_lookupProgramFunction (programID : ProgramID) (st : OS) : Z * OS :=
  if (MAX_NUMBER_OF_PROGRAMS <=? programID)%nat then (NULL, st)
  else read_program programID st.

(** ** Process launch *)

(** The 33 zero bytes of the initial context. *)
Fixpoint zero_fill (n : nat) (cursor : Z) (m : Z -> Z) : Z * (Z -> Z) :=
  match n with
  | O => (cursor, m)
  | S n' => zero_fill n' (wrap16 (cursor - 1)) (mem_write cursor 0 m)
  end.

(** The body of the loop of [os_exec] for an UNUSED slot [pid]. *)
Definition os_exec_slot (pid : ProcessID) (programID : ProgramID) (priority : Z)
    (st : OS) : ProcessID * OS :=
  let '(funktionszeiger, st) := os_lookupProgramFunction programID st in
  if funktionszeiger =? NULL then
    (INVALID_PROCESS, os_leaveCriticalSection st)
  else
    let st := update_slot pid (with_state OS_PS_READY) st in
    let st := update_slot pid (with_priority priority) st in
    let st := update_slot pid (with_progID programID) st in
    let cursor := wrap16 (PROCESS_STACK_BOTTOM pid) in
    let lowbyte := wrap8 (Z.land funktionszeiger 255) in
    let st := set_sram (mem_write cursor lowbyte (sram st)) st in
    let cursor := wrap16 (cursor - 1) in
    let highbyte := wrap8 (Z.shiftr funktionszeiger 8) in
    let st := set_sram (mem_write cursor highbyte (sram st)) st in
    let cursor := wrap16 (cursor - 1) in
    let '(cursor, m) := zero_fill 33 cursor (sram st) in
    let st := set_sram m st in
    let st := update_slot pid (with_sp cursor) st in
    (pid, os_leaveCriticalSection st).

(** The [for] loop of [os_exec]: [todo] iterations remain, starting at
    [pid]; it runs [MAX_NUMBER_OF_PROCESSES] times unless it returns. *)
Fixpoint os_exec_from (todo : nat) (pid : ProcessID) (programID : ProgramID)
    (priority : Z) (st : OS) : ProcessID * OS :=
  match todo with
  | O => (INVALID_PROCESS, os_leaveCriticalSection st)
  | S todo' =>
      if decide (state (os_getProcessSlot pid st) = OS_PS_UNUSED) then
        os_exec_slot pid programID priority st
      else os_exec_from todo' (S pid) programID priority st
  end.

(** [priority] has type [Priority], a byte: the store keeps it as it is. *)
Definition os_exec (programID : ProgramID) (priority : Z) (st : OS) : ProcessID * OS :=
  os_exec_from MAX_NUMBER_OF_PROCESSES O programID priority (os_enterCriticalSection st).

(** ** Boot *)

(** The source assigns the stack cursor of process 0 to [PS], which is
    not the stack-pointer register [SP]. *)
Definition os_startScheduler (st : OS) : OS :=
  let st := set_currentProc O st in
  let st := write_state (os_getCurrentProc st) OS_PS_RUNNING st in
  let st := set_PS (sp (os_getProcessSlot (os_getCurrentProc st) st)) st in
  restoreContext st.

Definition os_initScheduler (st : OS) : OS :=
  let st :=
    fold_left (fun st pid => write_state pid OS_PS_UNUSED st)
      (seq 0 MAX_NUMBER_OF_PROCESSES) st in
  fold_left
    (fun st progID =>
       if os_checkAutostartProgram progID st
       then snd (os_exec progID DEFAULT_PRIORITY st) else st)
    (seq 0 MAX_NUMBER_OF_PROGRAMS) st.

(** ** The timer interrupt *)

Definition selector (which : SchedulingStrategy) : list Process -> ProcessID -> ProcessID :=
  match which with
  | OS_SS_EVEN => os_Scheduler_Even
  | OS_SS_RANDOM => os_Scheduler_Random
  | OS_SS_RUN_TO_COMPLETION => os_Scheduler_RunToCompletion
  | OS_SS_ROUND_ROBIN => os_Scheduler_RoundRobin
  | OS_SS_INACTIVE_AGING => os_Scheduler_InactiveAging
  end.

(** [currentProc = f(os_processes, currentProc)] for the selector [f]
    that implements strategy [which]. *)
Definition call_selector (which : SchedulingStrategy)
    (f : list Process -> ProcessID -> ProcessID) (st : OS) : OS :=
  let st := emit (EvSelect which (os_processes st) (currentProc st)) st in
  set_currentProc (f (os_processes st) (currentProc st)) st.

Definition ISR_TIMER2_COMPA (st : OS) : OS :=
  let st := saveContext st in
  let st := store_sp (os_getCurrentProc st) (SP st) st in
  let st := write_SP BOTTOM_OF_ISR_STACK st in
  let st := write_state (os_getCurrentProc st) OS_PS_READY st in
  let st :=
    if decide (currentSchedulingStrategy st = OS_SS_EVEN) then
      call_selector OS_SS_EVEN os_Scheduler_Even st
    else if decide (currentSchedulingStrategy st = OS_SS_RANDOM) then
      call_selector OS_SS_RANDOM os_Scheduler_Random st
    else if decide (currentSchedulingStrategy st = OS_SS_ROUND_ROBIN) then
      call_selector OS_SS_ROUND_ROBIN os_Scheduler_RoundRobin st
    else if decide (currentSchedulingStrategy st = OS_SS_INACTIVE_AGING) then
      call_selector OS_SS_INACTIVE_AGING os_Scheduler_InactiveAging st
    else
      call_selector OS_SS_RUN_TO_COMPLETION os_Scheduler_RunToCompletion st in
  let st := write_state (os_getCurrentProc st) OS_PS_RUNNING st in
  let st := write_SP (sp (os_getProcessSlot (os_getCurrentProc st) st)) st in
  restoreContext st.

End Scheduler.

(** * Vocabulary of the properties *)

(** ** Sequences of critical-section operations *)

Inductive CSOp := Enter | Leave.

Definition cs_step (st : OS) (op : CSOp) : OS :=
  match op with
  | Enter => os_enterCriticalSection st
  | Leave => os_leaveCriticalSection st
  end.

Definition cs_run (ops : list CSOp) (st : OS) : OS := fold_left cs_step ops st.

(** [n] enters followed by [n] leaves. *)
Definition nested (n : nat) : list CSOp := replicate n Enter ++ replicate n Leave.

Definition is_error (e : Event) : bool :=
  match e with EvError _ => true | _ => false end.

(** How often the error collaborator has been called. *)
Definition errors_reported (st : OS) : nat := length (filter is_error (trace st)).

(** ** A sample configuration

    The values of a typical configuration for an ATmega644 (eight
    process slots, sixteen program slots, 255 as both sentinels); the
    theorems hold for every configuration, this one instantiates them. *)

#[local] Instance sample_defines : Defines := {|
  MAX_NUMBER_OF_PROCESSES := 8%nat;
  MAX_NUMBER_OF_PROGRAMS := 16%nat;
  INVALID_PROCESS := 255%nat;
  INVALID_PROGRAM := 255%nat;
  DEFAULT_PRIORITY := 2;
  BOTTOM_OF_ISR_STACK := 4319;
  PROCESS_STACK_BOTTOM := fun pid => 4127 - Z.of_nat pid * 256;
  processes_fit := ltac:(lia);
  programs_fit := ltac:(lia)
|}.

(** A selector that keeps the current process if it is READY and falls
    back to the idle process otherwise. *)
Definition stay_or_idle (table : list Process) (cur : ProcessID) : ProcessID :=
  if decide (state (default zero_slot (table !! cur)) = OS_PS_READY) then cur else O.

#[local] Instance sample_strategies : Strategies := {|
  os_Scheduler_Even := stay_or_idle;
  os_Scheduler_Random := stay_or_idle;
  os_Scheduler_RoundRobin := stay_or_idle;
  os_Scheduler_InactiveAging := stay_or_idle;
  os_Scheduler_RunToCompletion := stay_or_idle
|}.

(** The state after reset: memory zeroed, nothing registered, programs 0
    and 2 marked for autostart. *)
Definition reset_state : OS :=
  {| os_processes := replicate 8 zero_slot;
     os_programs := replicate 16 NULL;
     past_programs := 0;
     currentProc := O;
     currentSchedulingStrategy := OS_SS_EVEN;
     criticalSectionCount := 0;
     os_autostart := 5;
     SREG := 0; TIMSK2 := 0; SP := 4351; PS := 0; PC := 0;
     regs := replicate 32 0;
     sram := fun _ => 0;
     trace := [] |}.

(** ** Events of an operation *)

(** [emits evs st] is [st] with [evs] appended to its history. *)
Definition emits (evs : list Event) (st : OS) : OS :=
  fold_left (fun st e => emit e st) evs st.

Definition is_prog_write (e : Event) : bool :=
  match e with EvProgWrite _ => true | _ => false end.

(** The word that a read of [os_programs[slot]] yields. *)
Definition program_word (slot : nat) (st : OS) : Z :=
  match os_programs st !! slot with
  | Some p => p
  | None => past_programs st
  end.

Section RegistryVocabulary.
Context `{D : Defines}.

Definition wf_registry (st : OS) : Prop :=
  length (os_programs st) = MAX_NUMBER_OF_PROGRAMS.

(** An access to [os_programs] stays inside the array. *)
Definition access_in_bounds (e : Event) : Prop :=
  match e with
  | EvProgRead i | EvProgWrite i => (i < MAX_NUMBER_OF_PROGRAMS)%nat
  | _ => True
  end.


(** The scan of [os_registerProgram] stops at a slot that is free or
    already holds the program. *)
Definition stops_scan (program q : Z) : Prop := q = NULL \/ q = program.

End RegistryVocabulary.

(** A registry whose sixteen slots hold the entry points 256, 512, ...,
    4096. *)
Definition full_state : OS :=
  set_os_programs (map (fun i => Z.of_nat (S i) * 256) (seq 0 16)) reset_state.

Section LaunchVocabulary.
Context `{D : Defines}.

Definition wf_table (st : OS) : Prop :=
  length (os_processes st) = MAX_NUMBER_OF_PROCESSES.

(** Entry points are sixteen-bit code addresses. *)
Definition pointers_fit (st : OS) : Prop :=
  Forall (fun f => 0 <= f < 65536) (os_programs st).

(** What [os_lookupProgramFunction] returns. *)
Definition lookup_value (programID : ProgramID) (st : OS) : Z :=
  fst (os_lookupProgramFunction programID st).

(** The program id resolves to a registered entry point. *)
Definition resolves (programID : ProgramID) (st : OS) : Prop :=
  lookup_value programID st <> NULL.

(** The first slot of the table in state UNUSED, if there is one. *)
Definition first_unused (st : OS) : option ProcessID :=
  fst <$> list_find (fun p => state p = OS_PS_UNUSED) (os_processes st).

Definition unused_count (procs : list Process) : nat :=
  length (filter (fun p => state p = OS_PS_UNUSED) procs).

(** One call of a sequence of [os_exec] calls, with the states around it. *)
Record ExecStep := {
  before : OS;
  called_program : ProgramID;
  called_priority : Z;
  returned : ProcessID;
  after : OS
}.

Fixpoint exec_steps (calls : list (ProgramID * Z)) (st : OS) : list ExecStep :=
  match calls with
  | [] => []
  | (programID, prio) :: rest =>
      let r := os_exec programID prio st in
      {| before := st; called_program := programID; called_priority := prio;
         returned := fst r; after := snd r |} :: exec_steps rest (snd r)
  end.

Definition succeeded (s : ExecStep) : Prop := returned s <> INVALID_PROCESS.

(** What the specification promises of one call. *)
Definition step_ok (s : ExecStep) : Prop :=
  match first_unused (before s) with
  | Some pid =>
      returned s = pid /\ pid <> INVALID_PROCESS /\
      (exists p, os_processes (after s) !! pid = Some p /\
                 state p = OS_PS_READY /\
                 priority p = called_priority s /\
                 progID p = called_program s) /\
      (forall j, j <> pid -> os_processes (after s) !! j = os_processes (before s) !! j)
  | None =>
      returned s = INVALID_PROCESS /\
      os_processes (after s) = os_processes (before s)
  end.

(** The stack memory and cursor that [os_exec] prepares for entry point
    [f] in the region of process [pid]. *)
Definition initial_frame (pid : ProcessID) (f : Z) (m : Z -> Z) : Z * (Z -> Z) :=
  let bottom := wrap16 (PROCESS_STACK_BOTTOM pid) in
  zero_fill 33 (wrap16 (wrap16 (bottom - 1) - 1))
    (mem_write (wrap16 (bottom - 1)) (wrap8 (Z.shiftr f 8))
       (mem_write bottom (wrap8 (Z.land f 255)) m)).

End LaunchVocabulary.

(** The bytes that [n] pops take off the stack of [st], in pop order. *)
Definition stack_bytes (n : nat) (st : OS) : list Z :=
  map (fun i => sram st (wrap16 (SP st + Z.of_nat i))) (seq 1 n).

(** A registry with entry point 0x1234 for program 0 and 0x2040 for
    program 2, after reset. *)
Definition registered_state : OS :=
  set_os_programs (<[0%nat := 4660]> (<[2%nat := 8256]> (replicate 16 NULL))) reset_state.

Section SchedulerVocabulary.
Context `{D : Defines} `{Strat : Strategies}.

Definition no_running (st : OS) : Prop :=
  forall i, (i < MAX_NUMBER_OF_PROCESSES)%nat ->
    state (os_getProcessSlot i st) <> OS_PS_RUNNING.

(** Process [pid], and no other process of the table, is RUNNING. *)
Definition unique_running (st : OS) (pid : ProcessID) : Prop :=
  (pid < MAX_NUMBER_OF_PROCESSES)%nat /\
  forall i, (i < MAX_NUMBER_OF_PROCESSES)%nat ->
    (state (os_getProcessSlot i st) = OS_PS_RUNNING <-> i = pid).

(** The contract of the selectors (section 4.4, step 5): the id they
    return is a slot of the table. *)
Definition strategies_in_range : Prop :=
  forall which table cur,
    length table = MAX_NUMBER_OF_PROCESSES ->
    (selector which table cur < MAX_NUMBER_OF_PROCESSES)%nat.

(** The process table that the ISR hands to the selector: the
    interrupted process has its cursor stored and is READY. *)
Definition table_at_selection (st : OS) : list Process :=
  alter (with_state OS_PS_READY) (currentProc st)
    (alter (with_sp (SP (saveContext st))) (currentProc st) (os_processes st)).

End SchedulerVocabulary.

(** The idle program launched as process 0, and the system after
    [os_startScheduler]. *)
Definition launched_state : OS := snd (os_exec 0%nat 2 registered_state).
Definition running_state : OS := os_startScheduler launched_state.

(** ** os_input.c, the remaining functions *)

(** [os_initInput] as a function of the values of [DDRC] and [PORTC];
    it returns the new values of both registers. *)
Definition os_initInput (DDRC PORTC : Z) : Z * Z :=
  (Z.land DDRC 60 (* 0b00111100 *), Z.lor PORTC 195 (* 0b11000011 *)).

(** The polling loops read [PINC] once per iteration.  [readings] is the
    sequence of values the register shows; the result is what is left of
    it when the loop exits, [None] when the loop is still polling after
    the last reading. *)
Fixpoint os_waitForNoInput (readings : list Z) : option (list Z) :=
  match readings with
  | [] => None
  | PINC :: rest =>
      if negb (os_getInput PINC =? 0) then os_waitForNoInput rest else Some rest
  end.

Fixpoint os_waitForInput (readings : list Z) : option (list Z) :=
  match readings with
  | [] => None
  | PINC :: rest =>
      if os_getInput PINC =? 0 then os_waitForInput rest else Some rest
  end.

(** Button [pin] is pressed when its line reads low. *)
Definition pressed (PINC pin : Z) : Z := if Z.testbit PINC pin then 0 else 1.

Definition any_pressed (PINC : Z) : bool :=
  negb (Z.testbit PINC 0 && Z.testbit PINC 1 && Z.testbit PINC 6 && Z.testbit PINC 7).

(** The value of [os_getInput] in terms of the four buttons. *)
Definition button_value (PINC : Z) : Z :=
  pressed PINC 0 + 2 * pressed PINC 1 + 4 * pressed PINC 6 + 8 * pressed PINC 7
  + 64 * pressed PINC 6 + 128 * pressed PINC 7.

(** ** The registry queries of os_scheduler.c *)

Section RegistryQueries.
Context `{D : Defines}.

(** The [for] loop of [os_lookupProgramID]: [todo] iterations remain,
    starting at [i]. *)
Fixpoint os_lookupProgramID_from (todo : nat) (i : ProgramID) (program : Z)
    (st : OS) : ProgramID * OS :=
  match todo with
  | O => (INVALID_PROGRAM, st)
  | S todo' =>
      let '(p, st) := read_program i st in
      if p =? program then (i, st)
      else os_lookupProgramID_from todo' (S i) program st
  end.

Definition os_lookupProgramID (program : Z) (st : OS) : ProgramID * OS :=
  os_lookupProgramID_from MAX_NUMBER_OF_PROGRAMS O program st.

(** [count] is a [uint8_t]; [*(os_getProgramSlot(i))] is a read of
    [os_programs[i]]. *)
Definition os_getNumberOfRegisteredPrograms (st : OS) : Z * OS :=
  fold_left
    (fun acc i =>
       let '(count, st) := acc in
       let '(p, st) := read_program i st in
       if p =? NULL then (count, st) else (wrap8 (count + 1), st))
    (seq 0 MAX_NUMBER_OF_PROGRAMS) (0, st).

End RegistryQueries.

(** The number of occupied slots of a registry. *)
Definition registered_count (progs : list Z) : nat :=
  length (filter (fun p => p <> NULL) progs).

(** ** The process-table queries of os_scheduler.c *)

Section TableQueries.
Context `{D : Defines}.

(** The [do ... while (++i < MAX_NUMBER_OF_PROCESSES)] loop of
    [os_getNumberOfActiveProcs]; [num] is a [uint8_t].  [fuel] bounds the
    iterations; [None] means it ran out. *)
Fixpoint os_getNumberOfActiveProcs_loop (fuel : nat) (i : ProcessID) (num : Z)
    (st : OS) : option Z :=
  let num :=
    wrap8 (num + (if decide (state (os_getProcessSlot i st) = OS_PS_UNUSED) then 0 else 1)) in
  let i := S i in
  if (i <? MAX_NUMBER_OF_PROCESSES)%nat then
    match fuel with
    | O => None
    | S fuel' => os_getNumberOfActiveProcs_loop fuel' i num st
    end
  else Some num.

Definition os_getNumberOfActiveProcs (st : OS) : option Z :=
  os_getNumberOfActiveProcs_loop MAX_NUMBER_OF_PROCESSES O 0 st.

(** The programs that [os_initScheduler] starts: those with their
    autostart bit set that resolve to an entry point, in ascending order. *)
Definition autostart_ids (st : OS) : list ProgramID :=
  filter (fun id => os_checkAutostartProgram id st = true /\ lookup_value id st <> NULL)
    (seq 0 MAX_NUMBER_OF_PROGRAMS).

(** The table holds READY processes for the programs [started], in this
    order, with the default priority, and UNUSED slots behind them. *)
Definition table_shape (procs : list Process) (started : list ProgramID) : Prop :=
  forall i p, procs !! i = Some p ->
    match started !! i with
    | Some id => state p = OS_PS_READY /\ progID p = id /\ priority p = DEFAULT_PRIORITY
    | None => state p = OS_PS_UNUSED
    end.

End TableQueries.

(** Two states with the same registry and the same autostart mask. *)
Definition same_registry (st st0 : OS) : Prop :=
  os_autostart st = os_autostart st0 /\
  os_programs st = os_programs st0 /\
  past_programs st = past_programs st0.

(** The number of slots of a table that are not UNUSED. *)
Definition active_count (procs : list Process) : nat :=
  length (filter (fun p => state p <> OS_PS_UNUSED) procs).

(** ** The stack checksum *)

Section ChecksumCode.
Context `{D : Defines}.

(** The [while] loop of [os_getStackChecksum]: [cursor] is the sixteen-bit
    [sp.as_int], [sum] the eight-bit checksum, [stored] the stack cursor
    of the process.  [fuel] bounds the iterations; [None] means it ran
    out. *)
Fixpoint os_getStackChecksum_loop (fuel : nat) (cursor sum stored : Z)
    (m : Z -> Z) : option Z :=
  if stored <? cursor then
    match fuel with
    | O => None
    | S fuel' =>
        let cursor := wrap16 (cursor - 1) in
        os_getStackChecksum_loop fuel' cursor (wrap8 (Z.lxor sum (m cursor))) stored m
    end
  else Some sum.

Definition os_getStackChecksum (pid : ProcessID) (st : OS) : option Z :=
  let cursor := wrap16 (PROCESS_STACK_BOTTOM pid) in
  let sum := sram st cursor in
  os_getStackChecksum_loop (Z.to_nat cursor) cursor sum
    (sp (os_getProcessSlot pid st)) (sram st).

End ChecksumCode.

(** * Properties *)

(** ** Arithmetic of the machine integers *)

Lemma wrap8_range z : 0 <= wrap8 z < 256.
Proof. unfold wrap8. apply Z.mod_pos_bound. lia. Qed.

Lemma wrap16_range z : 0 <= wrap16 z < 65536.
Proof. unfold wrap16. apply Z.mod_pos_bound. lia. Qed.

Lemma wrap16_small z : 0 <= z < 65536 -> wrap16 z = z.
Proof. intros H. unfold wrap16. apply Z.mod_small. lia. Qed.

Lemma wrap16_idem z : wrap16 (wrap16 z) = wrap16 z.
Proof. unfold wrap16. apply Z.mod_mod. lia. Qed.

(** [wrap16 (wrap16 a - k)] is [wrap16 (a - k)]: a chain of sixteen-bit
    decrements is one subtraction followed by one reduction. *)
Lemma wrap16_sub_l a k : wrap16 (wrap16 a - k) = wrap16 (a - k).
Proof. unfold wrap16. rewrite Zminus_mod_idemp_l. reflexivity. Qed.

Lemma wrap16_add_l a k : wrap16 (wrap16 a + k) = wrap16 (a + k).
Proof. unfold wrap16. rewrite Zplus_mod_idemp_l. reflexivity. Qed.

(** Two addresses less than 65536 apart stay distinct after reduction. *)
Lemma wrap16_sub_inj a j k :
  0 <= j < 65536 -> 0 <= k < 65536 ->
  wrap16 (a - j) = wrap16 (a - k) -> j = k.
Proof.
  unfold wrap16. intros Hj Hk H.
  assert (E : (k - j) mod 65536 = 0).
  { replace (k - j) with ((a - j) - (a - k)) by lia.
    rewrite Zminus_mod, H, Z.sub_diag. reflexivity. }
  apply Z.mod_divide in E; [|lia]. destruct E as [q Hq]. lia.
Qed.

(** ** The button reader *)

Lemma os_getInput_bit7 PINC :
  Z.testbit (os_getInput PINC) 7 = negb (Z.testbit PINC 7).
Proof.
  unfold os_getInput.
  rewrite Z.lor_spec, Z.shiftr_spec, !Z.land_spec, Z.lnot_spec by lia.
  change (Z.testbit 195 7) with true. change (Z.testbit 192 (7 + 4)) with false.
  rewrite !andb_true_r, !andb_false_r, orb_false_r. reflexivity.
Qed.

(** C2: with pins 7 and 0 pressed (raw value 0b01111110) the code returns
    0b10001001, bits 0, 3 and 7, where the documented result has bits 0 and 3
    only; the header comment's own example (buttons 1, 3 and 4 pressed, raw
    0b00111110, documented result 0b00001101) comes out as 0b11001101.  Bit 7
    of the result is the inverted pin 7 for every raw value: the two high
    bits are copied down but never cleared. *)
Theorem os_getInput_keeps_high_bits :
  os_getInput 126 = 137 /\
  os_getInput 62 = 205 /\
  (forall PINC, Z.testbit (os_getInput PINC) 7 = negb (Z.testbit PINC 7)).
Proof.
  split; [reflexivity|]. split; [reflexivity|]. apply os_getInput_bit7.
Qed.

(** ** Critical sections *)

Lemma enter_count st :
  criticalSectionCount (os_enterCriticalSection st) = wrap8 (criticalSectionCount st + 1).
Proof. reflexivity. Qed.

Lemma enter_TIMSK2 st :
  TIMSK2 (os_enterCriticalSection st) = Z.land (TIMSK2 st) 253.
Proof. reflexivity. Qed.

Lemma enter_masked st : scheduler_masked (os_enterCriticalSection st) = true.
Proof.
  unfold scheduler_masked. rewrite enter_TIMSK2, Z.land_spec. change (Z.testbit 253 1) with false.
  rewrite andb_false_r. reflexivity.
Qed.

Lemma leave_count st :
  criticalSectionCount (os_leaveCriticalSection st) = wrap8 (criticalSectionCount st - 1).
Proof.
  unfold os_leaveCriticalSection. cbn.
  destruct (wrap8 _ <? 0); [reflexivity|].
  destruct (wrap8 _ =? 0); reflexivity.
Qed.

Lemma leave_TIMSK2 st :
  TIMSK2 (os_leaveCriticalSection st) =
  if wrap8 (criticalSectionCount st - 1) =? 0 then Z.lor (TIMSK2 st) 2 else TIMSK2 st.
Proof.
  unfold os_leaveCriticalSection. cbn.
  pose proof (wrap8_range (criticalSectionCount st - 1)) as R.
  destruct (wrap8 _ <? 0) eqn:E; [apply Z.ltb_lt in E; lia|].
  destruct (wrap8 _ =? 0); reflexivity.
Qed.

Lemma leave_trace st : trace (os_leaveCriticalSection st) = trace st.
Proof.
  unfold os_leaveCriticalSection. cbn.
  pose proof (wrap8_range (criticalSectionCount st - 1)) as R.
  destruct (wrap8 _ <? 0) eqn:E; [apply Z.ltb_lt in E; lia|].
  destruct (wrap8 _ =? 0); reflexivity.
Qed.

Lemma enter_trace st : trace (os_enterCriticalSection st) = trace st.
Proof. reflexivity. Qed.

Lemma cs_run_trace ops : forall st, trace (cs_run ops st) = trace st.
Proof.
  unfold cs_run. induction ops as [|op ops IH]; intros st; [reflexivity|].
  cbn. rewrite IH. destruct op; [apply enter_trace | apply leave_trace].
Qed.

(** C1: the code never reaches the error call of [os_leaveCriticalSection].
    No sequence of enters and leaves, however unbalanced, reports an error,
    and a leave at nesting depth zero wraps the counter to 255 and leaves
    the scheduler interrupt as it was. *)
Theorem os_leaveCriticalSection_never_reports :
  (forall ops st, errors_reported (cs_run ops st) = errors_reported st) /\
  (forall st,
     let st' := os_leaveCriticalSection (set_criticalSectionCount 0 st) in
     criticalSectionCount st' = 255 /\
     trace st' = trace st /\
     TIMSK2 st' = TIMSK2 st) /\
  errors_reported (cs_run [Enter; Leave; Leave; Leave] reset_state) = O.
Proof.
  split; [|split].
  - intros ops st. unfold errors_reported. rewrite cs_run_trace. reflexivity.
  - intros st st'. subst st'. split; [|split].
    + rewrite leave_count. reflexivity.
    + rewrite leave_trace. reflexivity.
    + rewrite leave_TIMSK2. reflexivity.
  - reflexivity.
Qed.

Lemma cs_run_app ops1 ops2 st : cs_run (ops1 ++ ops2) st = cs_run ops2 (cs_run ops1 st).
Proof. unfold cs_run. apply fold_left_app. Qed.

Lemma cs_run_enters n : forall st,
  0 <= criticalSectionCount st ->
  criticalSectionCount st + Z.of_nat n <= 255 ->
  criticalSectionCount (cs_run (replicate n Enter) st) = criticalSectionCount st + Z.of_nat n /\
  ((1 <= n)%nat -> scheduler_masked (cs_run (replicate n Enter) st) = true).
Proof.
  induction n as [|n IH]; intros st H0 H1.
  - cbn. split; [lia | intros; lia].
  - change (cs_run (replicate (S n) Enter) st)
      with (cs_run (replicate n Enter) (os_enterCriticalSection st)).
    assert (E : criticalSectionCount (os_enterCriticalSection st) = criticalSectionCount st + 1).
    { rewrite enter_count. unfold wrap8. apply Z.mod_small. lia. }
    destruct (IH (os_enterCriticalSection st)) as [IHc IHm]; [lia | lia |].
    split; [lia|]. intros _. destruct n as [|n]; [apply enter_masked | apply IHm; lia].
Qed.

Lemma cs_run_leaves n : forall st,
  scheduler_masked st = true ->
  Z.of_nat n < criticalSectionCount st <= 255 ->
  criticalSectionCount (cs_run (replicate n Leave) st) = criticalSectionCount st - Z.of_nat n /\
  scheduler_masked (cs_run (replicate n Leave) st) = true.
Proof.
  induction n as [|n IH]; intros st Hm Hc.
  - cbn. split; [lia | exact Hm].
  - change (cs_run (replicate (S n) Leave) st)
      with (cs_run (replicate n Leave) (os_leaveCriticalSection st)).
    assert (E : criticalSectionCount (os_leaveCriticalSection st) = criticalSectionCount st - 1).
    { rewrite leave_count. unfold wrap8. apply Z.mod_small. lia. }
    assert (M : scheduler_masked (os_leaveCriticalSection st) = true).
    { unfold scheduler_masked. rewrite leave_TIMSK2.
      rewrite leave_count in E. rewrite E.
      destruct (criticalSectionCount st - 1 =? 0) eqn:Z0; [apply Z.eqb_eq in Z0; lia|].
      exact Hm. }
    destruct (IH (os_leaveCriticalSection st) M) as [IHc IHm]; [lia|].
    split; [lia | exact IHm].
Qed.

Lemma leave_last_unmasks st :
  criticalSectionCount st = 1 ->
  scheduler_masked (os_leaveCriticalSection st) = false /\
  criticalSectionCount (os_leaveCriticalSection st) = 0.
Proof.
  intros H. split.
  - unfold scheduler_masked. rewrite leave_TIMSK2, H.
    change (wrap8 (1 - 1) =? 0) with true. cbv iota.
    rewrite Z.lor_spec. change (Z.testbit 2 1) with true.
    rewrite orb_true_r. reflexivity.
  - rewrite leave_count, H. reflexivity.
Qed.

(** C6: for 1 <= N <= 255, starting at nesting depth zero, after each of the
    first 2N-1 operations of N enters followed by N leaves the scheduler
    interrupt is masked; the Nth leave unmasks it and brings the depth back
    to zero. *)
Theorem nested_sections_mask_until_last_leave (N : nat) (st : OS) :
  (1 <= N <= 255)%nat ->
  criticalSectionCount st = 0 ->
  (forall k, (1 <= k < 2 * N)%nat ->
     scheduler_masked (cs_run (take k (nested N)) st) = true) /\
  scheduler_masked (cs_run (nested N) st) = false /\
  criticalSectionCount (cs_run (nested N) st) = 0.
Proof.
  intros HN H0.
  assert (Prefix : forall j, (j < N)%nat ->
            criticalSectionCount (cs_run (replicate N Enter ++ replicate j Leave) st)
              = Z.of_nat N - Z.of_nat j /\
            scheduler_masked (cs_run (replicate N Enter ++ replicate j Leave) st) = true).
  { intros j Hj. rewrite cs_run_app.
    destruct (cs_run_enters N st) as [Ec Em]; [lia | lia |].
    destruct (cs_run_leaves j (cs_run (replicate N Enter) st)) as [Lc Lm];
      [apply Em; lia | lia |].
    split; [lia | exact Lm]. }
  split; [|].
  - intros k Hk. unfold nested.
    destruct (decide (k <= N)%nat) as [Hle|Hgt].
    + rewrite take_app_le by (rewrite length_replicate; lia).
      rewrite take_replicate, Nat.min_l by lia.
      apply cs_run_enters; lia.
    + rewrite take_app_ge by (rewrite length_replicate; lia).
      rewrite length_replicate, take_replicate, Nat.min_l by lia.
      apply Prefix. lia.
  - unfold nested.
    replace N with (S (N - 1))%nat at 2 4 by lia.
    rewrite replicate_S_end, app_assoc, cs_run_app.
    destruct (Prefix (N - 1)%nat) as [Pc _]; [lia|].
    apply leave_last_unmasks. lia.
Qed.

Lemma nested_sections_mask_until_last_leave_witness :
  (forall k, (1 <= k < 2 * 3)%nat ->
     scheduler_masked (cs_run (take k (nested 3)) reset_state) = true) /\
  scheduler_masked (cs_run (nested 3) reset_state) = false /\
  criticalSectionCount (cs_run (nested 3) reset_state) = 0.
Proof.
  apply (nested_sections_mask_until_last_leave 3 reset_state); [lia | reflexivity].
Defined.

(** ** Program registry *)

Lemma emits_app evs1 evs2 st : emits (evs1 ++ evs2) st = emits evs2 (emits evs1 st).
Proof. unfold emits. apply fold_left_app. Qed.


Lemma emits_os_programs evs : forall st, os_programs (emits evs st) = os_programs st.
Proof.
  induction evs as [|e evs IH]; intros st; cbn; [reflexivity|].
  unfold emits in IH. rewrite IH. reflexivity.
Qed.

Section Registry.
Context `{D : Defines}.

Lemma os_registerProgram_loop_unfold fuel program slot st :
  os_registerProgram_loop fuel program slot st =
  let r := EvProgRead slot in
  if program_word slot st =? NULL then Some (slot, emits [r] st)
  else if program_word slot st =? program then Some (slot, emits [r; r] st)
  else if (slot <? MAX_NUMBER_OF_PROGRAMS)%nat then
    match fuel with
    | O => None
    | S fuel' => os_registerProgram_loop fuel' program (S slot) (emits [r; r] st)
    end
  else Some (slot, emits [r; r] st).
Proof. destruct fuel; reflexivity. Qed.

(** The scan stops at the first slot that is free or holds the program,
    having read only slots up to that one. *)
Lemma os_registerProgram_loop_stops program s q : forall k slot fuel st,
  (slot + k = s)%nat -> (k <= fuel)%nat ->
  (s < MAX_NUMBER_OF_PROGRAMS)%nat ->
  os_programs st !! s = Some q -> stops_scan program q ->
  (forall i r, (i < s)%nat -> os_programs st !! i = Some r -> ~ stops_scan program r) ->
  exists evs,
    os_registerProgram_loop fuel program slot st = Some (s, emits evs st) /\
    Forall access_in_bounds evs /\ Forall (fun e => is_prog_write e = false) evs.
Proof.
  induction k as [|k IH]; intros slot fuel st Hs Hf Hlt Hq Hstop Hbefore;
    rewrite os_registerProgram_loop_unfold; cbv zeta.
  - assert (slot = s) by lia. subst slot.
    unfold program_word. rewrite Hq.
    destruct (q =? NULL) eqn:E0.
    { exists [EvProgRead s]. split; [reflexivity|]. split; repeat constructor. exact Hlt. }
    destruct (q =? program) eqn:E1.
    { exists [EvProgRead s; EvProgRead s]. split; [reflexivity|].
      split; repeat constructor; exact Hlt. }
    apply Z.eqb_neq in E0, E1. destruct Hstop; contradiction.
  - assert (Hin : (slot < s)%nat) by lia.
    destruct (lookup_lt_is_Some_2 (os_programs st) slot) as [r Hr].
    { apply lookup_lt_Some in Hq. lia. }
    unfold program_word. rewrite Hr.
    pose proof (Hbefore slot r Hin Hr) as Hns. unfold stops_scan in Hns.
    destruct (r =? NULL) eqn:E0; [apply Z.eqb_eq in E0; tauto|].
    destruct (r =? program) eqn:E1; [apply Z.eqb_eq in E1; tauto|].
    destruct (slot <? MAX_NUMBER_OF_PROGRAMS)%nat eqn:E2; [|apply Nat.ltb_ge in E2; lia].
    destruct fuel as [|fuel]; [lia|].
    destruct (IH (S slot) fuel (emits [EvProgRead slot; EvProgRead slot] st))
      as (evs & Hloop & Hb & Hw); try assumption; try lia.
    exists ([EvProgRead slot; EvProgRead slot] ++ evs).
    rewrite emits_app. split; [exact Hloop|].
    split; apply Forall_app; split; try assumption; repeat constructor; cbn; lia.
Qed.


End Registry.

Section RegistryClaims.
Context `{D : Defines}.

Lemma os_registerProgram_at_stop program s q st :
  (s < MAX_NUMBER_OF_PROGRAMS)%nat ->
  os_programs st !! s = Some q -> stops_scan program q ->
  (forall i r, (i < s)%nat -> os_programs st !! i = Some r -> ~ stops_scan program r) ->
  exists evs,
    os_registerProgram program st =
      Some (s, write_program s program (emits evs st)) /\
    Forall access_in_bounds evs.
Proof.
  intros Hlt Hq Hstop Hbefore.
  destruct (os_registerProgram_loop_stops program s q s O MAX_NUMBER_OF_PROGRAMS st)
    as (evs & Hloop & Hb & _); try assumption; try lia.
  exists evs. unfold os_registerProgram. rewrite Hloop.
  destruct (MAX_NUMBER_OF_PROGRAMS <=? s)%nat eqn:E; [apply Nat.leb_le in E; lia|].
  split; [reflexivity | exact Hb].
Qed.

(** C10: if [p] occupies slot [s] and every earlier slot holds another
    program, registering [p] again returns [s] and leaves the registry as
    it was. *)
Theorem os_registerProgram_idempotent (st : OS) (p : Z) (s : ProgramID) :
  (s < MAX_NUMBER_OF_PROGRAMS)%nat ->
  os_programs st !! s = Some p ->
  (forall i, (i < s)%nat -> exists q, os_programs st !! i = Some q /\ q <> NULL /\ q <> p) ->
  exists st',
    os_registerProgram p st = Some (s, st') /\
    os_programs st' = os_programs st.
Proof.
  intros Hlt Hs Hbefore.
  destruct (os_registerProgram_at_stop p s p st) as (evs & Hreg & _); try assumption.
  - right. reflexivity.
  - intros i r Hi Hr [E|E]; destruct (Hbefore i Hi) as (q & Hq & Hq0 & Hqp); congruence.
  - eexists. split; [exact Hreg|].
    cbn. rewrite emits_os_programs. apply list_insert_id. exact Hs.
Qed.


End RegistryClaims.

Lemma os_registerProgram_idempotent_witness :
  exists st',
    os_registerProgram 768 full_state = Some (2%nat, st') /\
    os_programs st' = os_programs full_state.
Proof.
  apply (os_registerProgram_idempotent full_state 768 2%nat).
  - cbn. lia.
  - reflexivity.
  - intros i Hi.
    destruct i as [|[|i]]; [exists 256 | exists 512 | lia];
      (split; [reflexivity | split; discriminate]).
Defined.



(** ** Frame facts *)

Lemma emits_eq evs : forall st,
  emits evs st =
  {| os_processes := os_processes st; os_programs := os_programs st;
     past_programs := past_programs st; currentProc := currentProc st;
     currentSchedulingStrategy := currentSchedulingStrategy st;
     criticalSectionCount := criticalSectionCount st;
     os_autostart := os_autostart st; SREG := SREG st; TIMSK2 := TIMSK2 st;
     SP := SP st; PS := PS st; PC := PC st; regs := regs st;
     sram := sram st; trace := trace st ++ evs |}.
Proof.
  induction evs as [|e evs IH]; intros st.
  - cbn. rewrite app_nil_r. destruct st; reflexivity.
  - change (emits (e :: evs) st) with (emits evs (emit e st)).
    rewrite IH. cbn. rewrite <- app_assoc. reflexivity.
Qed.

(** The critical-section functions touch the counter, SREG and TIMSK2
    only. *)
Ltac leave_cases :=
  unfold os_leaveCriticalSection; cbn;
  match goal with |- context [wrap8 ?x <? 0] => destruct (wrap8 x <? 0) end;
  [reflexivity|];
  match goal with |- context [wrap8 ?x =? 0] => destruct (wrap8 x =? 0) end;
  reflexivity.

Lemma leave_os_processes st : os_processes (os_leaveCriticalSection st) = os_processes st.
Proof. leave_cases. Qed.

Lemma leave_os_programs st : os_programs (os_leaveCriticalSection st) = os_programs st.
Proof. leave_cases. Qed.

Lemma leave_past_programs st : past_programs (os_leaveCriticalSection st) = past_programs st.
Proof. leave_cases. Qed.

Lemma leave_currentProc st : currentProc (os_leaveCriticalSection st) = currentProc st.
Proof. leave_cases. Qed.

Lemma leave_sram st : sram (os_leaveCriticalSection st) = sram st.
Proof. leave_cases. Qed.

Section Launch.
Context `{D : Defines}.

Lemma lookup_shape programID st :
  exists evs,
    os_lookupProgramFunction programID st = (lookup_value programID st, emits evs st).
Proof.
  unfold lookup_value, os_lookupProgramFunction.
  destruct (MAX_NUMBER_OF_PROGRAMS <=? programID)%nat.
  - exists []. reflexivity.
  - exists [EvProgRead programID]. reflexivity.
Qed.

Lemma lookup_value_ext programID st1 st2 :
  os_programs st1 = os_programs st2 -> past_programs st1 = past_programs st2 ->
  lookup_value programID st1 = lookup_value programID st2.
Proof.
  intros E1 E2. unfold lookup_value, os_lookupProgramFunction, read_program.
  destruct (MAX_NUMBER_OF_PROGRAMS <=? programID)%nat; cbn; [reflexivity|].
  rewrite E1, E2. reflexivity.
Qed.

Lemma lookup_value_enter programID st :
  lookup_value programID (os_enterCriticalSection st) = lookup_value programID st.
Proof. apply lookup_value_ext; reflexivity. Qed.

Lemma slot_enter pid st :
  os_getProcessSlot pid (os_enterCriticalSection st) = os_getProcessSlot pid st.
Proof. reflexivity. Qed.

(** An UNUSED slot and an unresolved program: the call fails and only
    the critical-section bookkeeping and the history change. *)
Lemma os_exec_slot_unresolved pid programID prio st :
  lookup_value programID st = NULL ->
  exists evs,
    os_exec_slot pid programID prio st =
      (INVALID_PROCESS, os_leaveCriticalSection (emits evs st)).
Proof.
  intros Hnull. destruct (lookup_shape programID st) as [evs Hl].
  exists evs. unfold os_exec_slot. rewrite Hl, Hnull. reflexivity.
Qed.

(** An UNUSED slot and a resolved program: what the call leaves in the
    table, in memory and in the registry. *)
Lemma os_exec_slot_resolved pid programID prio st :
  lookup_value programID st <> NULL ->
  let r := os_exec_slot pid programID prio st in
  let frame := initial_frame pid (lookup_value programID st) (sram st) in
  fst r = pid /\
  os_processes (snd r) =
    alter (with_sp (fst frame)) pid
      (alter (with_progID programID) pid
         (alter (with_priority prio) pid
            (alter (with_state OS_PS_READY) pid (os_processes st)))) /\
  sram (snd r) = snd frame /\
  os_programs (snd r) = os_programs st /\
  past_programs (snd r) = past_programs st /\
  currentProc (snd r) = currentProc st.
Proof.
  intros Hres r frame. subst r frame.
  destruct (lookup_shape programID st) as [evs Hl].
  unfold os_exec_slot, initial_frame. rewrite Hl.
  destruct (lookup_value programID st =? NULL) eqn:E; [apply Z.eqb_eq in E; contradiction|].
  rewrite emits_eq. unfold update_slot. cbn [os_processes sram set_os_processes set_sram].
  destruct (zero_fill 33 _ _) as [cursor m] eqn:Z.
  cbn [fst snd].
  rewrite leave_os_processes, leave_sram, leave_os_programs, leave_past_programs,
    leave_currentProc.
  cbn. repeat split; reflexivity.
Qed.

Lemma os_exec_from_found : forall todo pid i programID prio st,
  (pid <= i < pid + todo)%nat ->
  (forall j, (pid <= j < i)%nat -> state (os_getProcessSlot j st) <> OS_PS_UNUSED) ->
  state (os_getProcessSlot i st) = OS_PS_UNUSED ->
  os_exec_from todo pid programID prio st = os_exec_slot i programID prio st.
Proof.
  induction todo as [|todo IH]; intros pid i programID prio st Hi Hbefore Hun; [lia|].
  cbn [os_exec_from].
  destruct (decide (state (os_getProcessSlot pid st) = OS_PS_UNUSED)) as [E|E].
  - destruct (decide (pid = i)) as [->|Hne]; [reflexivity|].
    exfalso. apply (Hbefore pid); [lia | exact E].
  - destruct (decide (pid = i)) as [->|Hne]; [contradiction|].
    apply IH; [lia | | exact Hun]. intros j Hj. apply Hbefore. lia.
Qed.

Lemma os_exec_from_none : forall todo pid programID prio st,
  (forall j, (pid <= j < pid + todo)%nat -> state (os_getProcessSlot j st) <> OS_PS_UNUSED) ->
  os_exec_from todo pid programID prio st = (INVALID_PROCESS, os_leaveCriticalSection st).
Proof.
  induction todo as [|todo IH]; intros pid programID prio st Hall; [reflexivity|].
  cbn [os_exec_from].
  destruct (decide (state (os_getProcessSlot pid st) = OS_PS_UNUSED)) as [E|E].
  - exfalso. apply (Hall pid); [lia | exact E].
  - apply IH. intros j Hj. apply Hall. lia.
Qed.

End Launch.

(** ** Launching processes *)

Lemma unused_count_alter (f : Process -> Process) : forall l pid x,
  l !! pid = Some x -> state x = OS_PS_UNUSED -> state (f x) <> OS_PS_UNUSED ->
  (unused_count (alter f pid l) < unused_count l)%nat.
Proof.
  unfold unused_count.
  induction l as [|y l IH]; intros pid x Hl Hx Hfx; [discriminate|].
  destruct pid as [|pid]; cbn in Hl.
  - injection Hl as ->. cbn [alter list_alter].
    rewrite filter_cons_False, filter_cons_True by assumption. cbn. lia.
  - cbn [alter list_alter]. rewrite !filter_cons.
    specialize (IH pid x Hl Hx Hfx).
    destruct (decide (state y = OS_PS_UNUSED)); cbn; lia.
Qed.

Section LaunchClaims.
Context `{D : Defines}.

Lemma slot_lookup pid p st :
  os_processes st !! pid = Some p -> os_getProcessSlot pid st = p.
Proof. intros H. unfold os_getProcessSlot. rewrite H. reflexivity. Qed.

Lemma os_exec_at_first_unused pid programID prio st :
  wf_table st -> first_unused st = Some pid ->
  (pid < MAX_NUMBER_OF_PROCESSES)%nat /\
  (exists p, os_processes st !! pid = Some p /\ state p = OS_PS_UNUSED) /\
  os_exec programID prio st = os_exec_slot pid programID prio (os_enterCriticalSection st).
Proof.
  intros Hwf Hfirst. unfold first_unused in Hfirst.
  destruct (list_find _ _) as [[i p]|] eqn:Hfind; [|discriminate].
  cbn in Hfirst. injection Hfirst as ->.
  apply list_find_Some in Hfind as (Hp & Hun & Hbefore).
  assert (Hlt : (pid < MAX_NUMBER_OF_PROCESSES)%nat).
  { apply lookup_lt_Some in Hp. unfold wf_table in Hwf. lia. }
  split; [exact Hlt|]. split; [exists p; split; assumption|].
  unfold os_exec. apply os_exec_from_found; [lia | |].
  - intros j Hj. rewrite slot_enter.
    destruct (lookup_lt_is_Some_2 (os_processes st) j) as [q Hq].
    { apply lookup_lt_Some in Hp. lia. }
    rewrite (slot_lookup _ _ _ Hq). apply (Hbefore j q Hq). lia.
  - rewrite slot_enter, (slot_lookup _ _ _ Hp). exact Hun.
Qed.

Lemma os_exec_table_full programID prio st :
  wf_table st -> first_unused st = None ->
  os_exec programID prio st =
    (INVALID_PROCESS, os_leaveCriticalSection (os_enterCriticalSection st)).
Proof.
  intros Hwf Hnone. unfold first_unused in Hnone.
  destruct (list_find _ _) as [[i p]|] eqn:Hfind; [discriminate|].
  apply list_find_None in Hfind.
  unfold os_exec. apply os_exec_from_none. intros j Hj. rewrite slot_enter.
  destruct (lookup_lt_is_Some_2 (os_processes st) j) as [q Hq].
  { unfold wf_table in Hwf. lia. }
  rewrite (slot_lookup _ _ _ Hq). exact (Forall_lookup_1 _ _ _ _ Hfind Hq).
Qed.

(** Without a resolvable program the loop of [os_exec] changes no slot,
    wherever it starts. *)
Lemma os_exec_from_unresolved programID prio : forall todo pid st,
  lookup_value programID st = NULL ->
  fst (os_exec_from todo pid programID prio st) = INVALID_PROCESS /\
  os_processes (snd (os_exec_from todo pid programID prio st)) = os_processes st.
Proof.
  induction todo as [|todo IH]; intros pid st Hnull; cbn [os_exec_from].
  - split; [reflexivity | apply leave_os_processes].
  - destruct (decide (state (os_getProcessSlot pid st) = OS_PS_UNUSED)).
    + destruct (os_exec_slot_unresolved pid programID prio st Hnull) as [evs ->].
      cbn [fst snd]. rewrite leave_os_processes, emits_eq. split; reflexivity.
    + apply IH. exact Hnull.
Qed.

Lemma out_of_range_unresolved programID st :
  (MAX_NUMBER_OF_PROGRAMS <= programID)%nat -> lookup_value programID st = NULL.
Proof.
  intros H. unfold lookup_value, os_lookupProgramFunction.
  destruct (MAX_NUMBER_OF_PROGRAMS <=? programID)%nat eqn:E;
    [reflexivity | apply Nat.leb_gt in E; lia].
Qed.

Lemma free_slot_unresolved programID st :
  os_programs st !! programID = Some NULL -> lookup_value programID st = NULL.
Proof.
  intros H. unfold lookup_value, os_lookupProgramFunction, read_program.
  destruct (MAX_NUMBER_OF_PROGRAMS <=? programID)%nat; [reflexivity|].
  cbn [fst]. rewrite H. reflexivity.
Qed.

(** C7: when the program id does not resolve (the lookup returns NULL,
    as it does for an id out of range and for a free registry slot),
    [os_exec] returns INVALID_PROCESS and the process table is the one it
    was. *)
Theorem os_exec_unresolved_changes_no_slot (st : OS) (programID : ProgramID) (prio : Z) :
  lookup_value programID st = NULL ->
  fst (os_exec programID prio st) = INVALID_PROCESS /\
  os_processes (snd (os_exec programID prio st)) = os_processes st.
Proof.
  intros Hnull. unfold os_exec.
  destruct (os_exec_from_unresolved programID prio MAX_NUMBER_OF_PROCESSES O
              (os_enterCriticalSection st)) as [Hr Ht].
  { rewrite lookup_value_enter. exact Hnull. }
  split; [exact Hr | exact Ht].
Qed.

(** One call with a resolvable program: the promise of the
    specification, and what the call preserves. *)
Lemma os_exec_step programID prio st :
  wf_table st -> resolves programID st ->
  let r := os_exec programID prio st in
  step_ok {| before := st; called_program := programID; called_priority := prio;
             returned := fst r; after := snd r |} /\
  wf_table (snd r) /\
  os_programs (snd r) = os_programs st /\
  past_programs (snd r) = past_programs st /\
  currentProc (snd r) = currentProc st /\
  (fst r <> INVALID_PROCESS ->
   (unused_count (os_processes (snd r)) < unused_count (os_processes st))%nat) /\
  (fst r = INVALID_PROCESS -> os_processes (snd r) = os_processes st).
Proof.
  intros Hwf Hres r. subst r. unfold step_ok. cbn [before after returned called_program called_priority].
  destruct (first_unused st) as [pid|] eqn:Hfirst.
  - destruct (os_exec_at_first_unused pid programID prio st Hwf Hfirst)
      as (Hlt & (p & Hp & Hun) & ->).
    destruct (os_exec_slot_resolved pid programID prio (os_enterCriticalSection st))
      as (Hr & Ht & _ & Hprogs & Hpast & Hcur).
    { rewrite lookup_value_enter. exact Hres. }
    change (os_processes (os_enterCriticalSection st)) with (os_processes st) in Ht.
    rewrite !list_alter_alter_eq in Ht.
    rewrite Hr, Ht, Hprogs, Hpast, Hcur.
    pose proof processes_fit as Hfit.
    assert (Hne : pid <> INVALID_PROCESS) by lia.
    split; [|split; [|split; [|split; [|split; [|split]]]]]; try reflexivity.
    + split; [reflexivity|]. split; [exact Hne|]. split.
      * eexists. rewrite list_lookup_alter_eq, Hp. cbn. split; [reflexivity|].
        repeat split.
      * intros j Hj. apply list_lookup_alter_ne. congruence.
    + unfold wf_table. rewrite Ht, length_alter. exact Hwf.
    + intros _. apply (unused_count_alter _ _ _ p Hp Hun). cbn. discriminate.
    + intros E. contradiction.
  - rewrite (os_exec_table_full programID prio st Hwf Hfirst). cbn [fst snd].
    rewrite leave_os_processes, leave_os_programs, leave_past_programs, leave_currentProc.
    split; [|split; [|split; [|split; [|split; [|split]]]]]; try reflexivity.
    + split; reflexivity.
    + unfold wf_table. rewrite leave_os_processes. exact Hwf.
    + intros E. contradiction.
Qed.

Lemma exec_steps_spec : forall calls st,
  wf_table st ->
  Forall (fun c => resolves (fst c) st) calls ->
  Forall step_ok (exec_steps calls st) /\
  (length (filter succeeded (exec_steps calls st)) <= unused_count (os_processes st))%nat.
Proof.
  induction calls as [|[programID prio] calls IH]; intros st Hwf Hres.
  - cbn. split; [constructor | lia].
  - apply Forall_cons in Hres as [Hres1 Hres].
    destruct (os_exec_step programID prio st Hwf Hres1)
      as (Hok & Hwf' & Hprogs & Hpast & _ & Hless & Hsame).
    destruct (IH (snd (os_exec programID prio st)) Hwf') as [IHok IHlen].
    { eapply Forall_impl; [exact Hres|]. intros [q ?] Hq. unfold resolves in *.
      erewrite lookup_value_ext; [exact Hq | exact Hprogs | exact Hpast]. }
    cbn [exec_steps]. split; [constructor; assumption|].
    rewrite filter_cons. unfold succeeded at 1. cbn [returned].
    destruct (decide (fst (os_exec programID prio st) <> INVALID_PROCESS)) as [E|E].
    + specialize (Hless E). cbn [length]. lia.
    + assert (E' : fst (os_exec programID prio st) = INVALID_PROCESS).
      { destruct (decide (fst (os_exec programID prio st) = INVALID_PROCESS)); tauto. }
      rewrite (Hsame E') in IHlen. exact IHlen.
Qed.

(** C3: in a sequence of [os_exec] calls with registered program ids,
    each call returns the first UNUSED slot, which is READY afterwards and
    holds the given priority and program id while the other slots keep
    their contents, or returns INVALID_PROCESS when no slot is UNUSED and
    then changes no slot; at most MAX_NUMBER_OF_PROCESSES calls succeed. *)
Theorem os_exec_sequence (calls : list (ProgramID * Z)) (st : OS) :
  wf_table st ->
  Forall (fun c => resolves (fst c) st) calls ->
  Forall step_ok (exec_steps calls st) /\
  (length (filter succeeded (exec_steps calls st)) <= MAX_NUMBER_OF_PROCESSES)%nat.
Proof.
  intros Hwf Hres. destruct (exec_steps_spec calls st Hwf Hres) as [Hok Hlen].
  split; [exact Hok|].
  pose proof (length_filter (fun p => state p = OS_PS_UNUSED) (os_processes st)) as Hf.
  unfold unused_count, wf_table in *. lia.
Qed.

End LaunchClaims.

(** ** The hardware stack *)

Lemma pop_bytes_S n : forall st,
  pop_bytes (S n) st =
    (stack_bytes (S n) st, set_SP (wrap16 (SP st + Z.of_nat (S n))) st).
Proof.
  induction n as [|n IH]; intros st; [reflexivity|].
  change (pop_bytes (S (S n)) st)
    with (let '(b, st1) := pop st in
          let '(bs, st2) := pop_bytes (S n) st1 in (b :: bs, st2)).
  unfold pop. rewrite IH. unfold stack_bytes.
  cbn [SP set_SP sram]. f_equal.
  - change (seq 1 (S (S n))) with (1%nat :: seq 2 (S n)).
    rewrite <- (seq_shift (S n) 1). cbn [map]. f_equal.
    rewrite map_map. apply map_ext. intros i.
    rewrite wrap16_add_l. f_equal. f_equal. lia.
  - rewrite wrap16_add_l. unfold set_SP. cbn. f_equal. f_equal. lia.
Qed.

(** [restoreContext] in closed form: the 33 context bytes go to the
    registers and SREG, the next two bytes to the program counter. *)
Lemma restoreContext_closed st :
  restoreContext st =
  set_PC (sram st (wrap16 (SP st + 34)) * 256 + sram st (wrap16 (SP st + 35)))
    (set_SP (wrap16 (SP st + 35))
       (set_regs (tail (reverse (stack_bytes 33 st)))
          (set_SREG (hd 0 (reverse (stack_bytes 33 st)))
             (emit (EvRestoreContext (SP st)) st)))).
Proof.
  unfold restoreContext. rewrite pop_bytes_S. unfold pop.
  cbn [SP set_SP set_regs set_SREG sram emit].
  rewrite !wrap16_add_l.
  replace (SP st + Z.of_nat 33 + 1) with (SP st + 34) by lia.
  replace (SP st + 34 + 1) with (SP st + 35) by lia.
  reflexivity.
Qed.

(** ** The initial stack frame *)

Lemma zero_fill_cursor : forall n c m,
  wrap16 c = c -> fst (zero_fill n c m) = wrap16 (c - Z.of_nat n).
Proof.
  induction n as [|n IH]; intros c m Hc.
  - cbn. rewrite Z.sub_0_r. symmetry. exact Hc.
  - cbn [zero_fill]. rewrite IH by apply wrap16_idem.
    rewrite wrap16_sub_l. f_equal. lia.
Qed.

Lemma zero_fill_only_zeroes : forall n c m a,
  snd (zero_fill n c m) a = 0 \/ snd (zero_fill n c m) a = m a.
Proof.
  induction n as [|n IH]; intros c m a; [right; reflexivity|].
  cbn [zero_fill].
  destruct (IH (wrap16 (c - 1)) (mem_write c 0 m) a) as [E|E]; [left; exact E|].
  rewrite E. unfold mem_write. destruct (a =? c); [left | right]; reflexivity.
Qed.

Lemma zero_fill_zero : forall n c m k,
  wrap16 c = c -> 0 <= k < Z.of_nat n ->
  snd (zero_fill n c m) (wrap16 (c - k)) = 0.
Proof.
  induction n as [|n IH]; intros c m k Hc Hk; [lia|].
  cbn [zero_fill].
  destruct (decide (k = 0)) as [->|Hk0].
  - rewrite Z.sub_0_r, Hc.
    destruct (zero_fill_only_zeroes n (wrap16 (c - 1)) (mem_write c 0 m) c) as [E|E];
      [exact E|].
    rewrite E. unfold mem_write. rewrite Z.eqb_refl. reflexivity.
  - replace (wrap16 (c - k)) with (wrap16 (wrap16 (c - 1) - (k - 1))).
    + apply IH; [apply wrap16_idem | lia].
    + rewrite wrap16_sub_l. f_equal. lia.
Qed.

Lemma zero_fill_other : forall n c m a,
  wrap16 c = c ->
  (forall k, 0 <= k < Z.of_nat n -> a <> wrap16 (c - k)) ->
  snd (zero_fill n c m) a = m a.
Proof.
  induction n as [|n IH]; intros c m a Hc Ha; [reflexivity|].
  cbn [zero_fill]. rewrite IH.
  - unfold mem_write. destruct (a =? c) eqn:E; [|reflexivity].
    apply Z.eqb_eq in E. exfalso. apply (Ha 0); [lia|].
    rewrite Z.sub_0_r, Hc. exact E.
  - apply wrap16_idem.
  - intros k Hk E. apply (Ha (k + 1)); [lia|].
    rewrite E, wrap16_sub_l. f_equal. lia.
Qed.

Lemma low_byte f : 0 <= f -> wrap8 (Z.land f 255) = f mod 256.
Proof.
  intros Hf. unfold wrap8. change 255 with (Z.ones 8).
  rewrite Z.land_ones by lia. change (2 ^ 8) with 256.
  apply Z.mod_mod. lia.
Qed.

Lemma high_byte f : 0 <= f < 65536 -> wrap8 (Z.shiftr f 8) = f / 256.
Proof.
  intros Hf. unfold wrap8. rewrite Z.shiftr_div_pow2 by lia. change (2 ^ 8) with 256.
  apply Z.mod_small. split; [apply Z.div_pos; lia | apply Z.div_lt_upper_bound; lia].
Qed.

Section Frame.
Context `{D : Defines}.

(** The layout of the frame that [os_exec] writes, from the bottom of the
    region downwards: low byte, high byte, 33 zero bytes, cursor below. *)
Lemma initial_frame_layout pid f m :
  0 <= f < 65536 ->
  let bottom := wrap16 (PROCESS_STACK_BOTTOM pid) in
  let frame := initial_frame pid f m in
  fst frame = wrap16 (bottom - 35) /\
  snd frame bottom = f mod 256 /\
  snd frame (wrap16 (bottom - 1)) = f / 256 /\
  (forall k, 2 <= k <= 34 -> snd frame (wrap16 (bottom - k)) = 0).
Proof.
  intros Hf bottom frame. subst frame. unfold initial_frame. fold bottom.
  assert (Hb : wrap16 bottom = bottom) by apply wrap16_idem.
  assert (Hc : wrap16 (wrap16 (bottom - 1) - 1) = wrap16 (bottom - 2)).
  { rewrite wrap16_sub_l. f_equal. lia. }
  rewrite Hc.
  assert (Hout : forall j, 0 <= j <= 1 -> forall k, 0 <= k < Z.of_nat 33 ->
            wrap16 (bottom - j) <> wrap16 (wrap16 (bottom - 2) - k)).
  { intros j Hj k Hk E. rewrite wrap16_sub_l in E.
    replace (bottom - 2 - k) with (bottom - (2 + k)) in E by lia.
    apply wrap16_sub_inj in E; lia. }
  split; [|split; [|split]].
  - rewrite zero_fill_cursor by apply wrap16_idem.
    rewrite wrap16_sub_l. f_equal. lia.
  - rewrite zero_fill_other; [| apply wrap16_idem |].
    + unfold mem_write. rewrite Z.eqb_refl.
      destruct (bottom =? wrap16 (bottom - 1)) eqn:E.
      * apply Z.eqb_eq in E. rewrite <- Hb in E at 1.
        replace bottom with (bottom - 0) in E at 1 by lia.
        apply wrap16_sub_inj in E; lia.
      * apply low_byte. lia.
    + intros k Hk. specialize (Hout 0 ltac:(lia) k Hk).
      rewrite Z.sub_0_r, Hb in Hout. exact Hout.
  - rewrite zero_fill_other; [| apply wrap16_idem | apply Hout; lia].
    unfold mem_write. rewrite Z.eqb_refl. apply high_byte. exact Hf.
  - intros k Hk.
    replace (wrap16 (bottom - k)) with (wrap16 (wrap16 (bottom - 2) - (k - 2))).
    + apply zero_fill_zero; [apply wrap16_idem | lia].
    + rewrite wrap16_sub_l. f_equal. lia.
Qed.

End Frame.

Section FrameClaim.
Context `{D : Defines}.

Lemma lookup_value_range programID st :
  wf_registry st -> pointers_fit st -> 0 <= lookup_value programID st < 65536.
Proof.
  intros Hwf Hall. unfold lookup_value, os_lookupProgramFunction, read_program.
  destruct (MAX_NUMBER_OF_PROGRAMS <=? programID)%nat eqn:Hin; cbn [fst];
    [unfold NULL; lia|].
  apply Nat.leb_gt in Hin.
  destruct (lookup_lt_is_Some_2 (os_programs st) programID) as [f E].
  { unfold wf_registry in Hwf. lia. }
  rewrite E. exact (Forall_lookup_1 _ _ _ _ Hall E).
Qed.

(** A successful [os_exec] went through the first UNUSED slot with a
    resolved program. *)
Lemma os_exec_success_inv programID prio st :
  wf_table st ->
  fst (os_exec programID prio st) <> INVALID_PROCESS ->
  exists pid p,
    first_unused st = Some pid /\
    os_processes st !! pid = Some p /\
    lookup_value programID st <> NULL /\
    os_exec programID prio st = os_exec_slot pid programID prio (os_enterCriticalSection st).
Proof.
  intros Hwf Hok.
  destruct (first_unused st) as [pid|] eqn:Hfirst.
  - destruct (os_exec_at_first_unused pid programID prio st Hwf Hfirst)
      as (_ & (p & Hp & _) & Hexec).
    exists pid, p. split; [reflexivity|]. split; [exact Hp|]. split; [|exact Hexec].
    intros Hnull. apply Hok. rewrite Hexec.
    destruct (os_exec_slot_unresolved pid programID prio (os_enterCriticalSection st))
      as [evs ->]; [rewrite lookup_value_enter; exact Hnull | reflexivity].
  - exfalso. apply Hok. rewrite (os_exec_table_full programID prio st Hwf Hfirst).
    reflexivity.
Qed.

(** C5: after a successful [os_exec], the stack region of the new process
    holds, from its bottom downwards, the low and the high byte of the
    entry point and then 33 zero bytes, and the stored cursor is the
    address below them; [restoreContext] started at that cursor pops
    exactly this frame: 32 zero registers, a zero status register, the
    entry point as program counter, and the stack back at the bottom. *)
Theorem os_exec_initial_frame (st : OS) (programID : ProgramID) (prio : Z) :
  wf_table st -> wf_registry st -> pointers_fit st ->
  fst (os_exec programID prio st) <> INVALID_PROCESS ->
  let pid := fst (os_exec programID prio st) in
  let st' := snd (os_exec programID prio st) in
  let f := lookup_value programID st in
  let bottom := wrap16 (PROCESS_STACK_BOTTOM pid) in
  let cursor := sp (os_getProcessSlot pid st') in
  let resumed := restoreContext (set_SP cursor st') in
  f <> NULL /\
  sram st' bottom = f mod 256 /\
  sram st' (wrap16 (bottom - 1)) = f / 256 /\
  (forall k, 2 <= k <= 34 -> sram st' (wrap16 (bottom - k)) = 0) /\
  cursor = wrap16 (bottom - 35) /\
  regs resumed = replicate 32 0 /\
  SREG resumed = 0 /\
  PC resumed = f /\
  SP resumed = bottom.
Proof.
  intros Hwf Hreg Hfit Hok.
  destruct (os_exec_success_inv programID prio st Hwf Hok)
    as (pid0 & p & _ & Hp & Hres & Hexec).
  rewrite Hexec. clear Hexec Hok.
  destruct (os_exec_slot_resolved pid0 programID prio (os_enterCriticalSection st))
    as (Hr & Ht & Hm & _); [rewrite lookup_value_enter; exact Hres|].
  rewrite lookup_value_enter in Ht, Hm.
  change (sram (os_enterCriticalSection st)) with (sram st) in Ht, Hm.
  change (os_processes (os_enterCriticalSection st)) with (os_processes st) in Ht.
  rewrite Hr. cbv zeta.
  set (st' := snd (os_exec_slot pid0 programID prio (os_enterCriticalSection st))) in *.
  set (f := lookup_value programID st) in *.
  set (bottom := wrap16 (PROCESS_STACK_BOTTOM pid0)).
  destruct (initial_frame_layout pid0 f (sram st)) as (Hcur & Hlo & Hhi & Hzero).
  { apply lookup_value_range; assumption. }
  fold bottom in Hcur, Hlo, Hhi, Hzero.
  assert (Hsp : sp (os_getProcessSlot pid0 st') = wrap16 (bottom - 35)).
  { unfold os_getProcessSlot. rewrite Ht, !list_lookup_alter_eq, Hp.
    cbn -[initial_frame]. exact Hcur. }
  assert (Hbottom : wrap16 bottom = bottom) by apply wrap16_idem.
  assert (Hbytes : stack_bytes 33 (set_SP (wrap16 (bottom - 35)) st') = replicate 33 0).
  { unfold stack_bytes. cbn [SP set_SP sram].
    transitivity (map (fun _ : nat => 0) (seq 1 33)); [|reflexivity].
    apply map_ext_in. intros i Hi. apply in_seq in Hi.
    rewrite wrap16_add_l, Hm.
    replace (bottom - 35 + Z.of_nat i) with (bottom - (35 - Z.of_nat i)) by lia.
    apply Hzero. lia. }
  split; [exact Hres|]. rewrite Hm.
  split; [exact Hlo|]. split; [exact Hhi|]. split; [exact Hzero|].
  rewrite Hsp. split; [reflexivity|].
  rewrite restoreContext_closed, Hbytes.
  cbn [regs SREG PC SP set_PC set_SP set_regs set_SREG emit sram].
  rewrite !wrap16_add_l, Hm.
  replace (bottom - 35 + 34) with (bottom - 1) by lia.
  replace (bottom - 35 + 35) with bottom by lia.
  rewrite Hbottom, Hlo, Hhi.
  split; [reflexivity|]. split; [reflexivity|]. split; [|reflexivity].
  pose proof (Z.div_mod f 256) as Hdm. lia.
Qed.

End FrameClaim.

Lemma os_exec_initial_frame_witness :
  let pid := fst (os_exec 2%nat 5 registered_state) in
  let st' := snd (os_exec 2%nat 5 registered_state) in
  let f := lookup_value 2%nat registered_state in
  let bottom := wrap16 (PROCESS_STACK_BOTTOM pid) in
  let cursor := sp (os_getProcessSlot pid st') in
  let resumed := restoreContext (set_SP cursor st') in
  f <> NULL /\
  sram st' bottom = f mod 256 /\
  sram st' (wrap16 (bottom - 1)) = f / 256 /\
  (forall k, 2 <= k <= 34 -> sram st' (wrap16 (bottom - k)) = 0) /\
  cursor = wrap16 (bottom - 35) /\
  regs resumed = replicate 32 0 /\
  SREG resumed = 0 /\
  PC resumed = f /\
  SP resumed = bottom.
Proof.
  apply (os_exec_initial_frame registered_state 2%nat 5).
  - reflexivity.
  - reflexivity.
  - unfold pointers_fit, registered_state. cbn.
    repeat constructor; unfold NULL; lia.
  - vm_compute. discriminate.
Defined.

Lemma os_exec_unresolved_changes_no_slot_witness :
  fst (os_exec 1%nat 5 registered_state) = INVALID_PROCESS /\
  os_processes (snd (os_exec 1%nat 5 registered_state)) = os_processes registered_state.
Proof.
  apply (os_exec_unresolved_changes_no_slot registered_state 1%nat 5). reflexivity.
Defined.

Lemma os_exec_sequence_witness :
  Forall step_ok (exec_steps [(0%nat, 2%Z); (2%nat, 5%Z); (0%nat, 7%Z)] registered_state) /\
  (length (filter succeeded (exec_steps [(0%nat, 2%Z); (2%nat, 5%Z); (0%nat, 7%Z)] registered_state))
   <= MAX_NUMBER_OF_PROCESSES)%nat.
Proof.
  apply (os_exec_sequence [(0%nat, 2%Z); (2%nat, 5%Z); (0%nat, 7%Z)] registered_state).
  - reflexivity.
  - repeat constructor; vm_compute; discriminate.
Defined.

(** ** Context switch and the timer interrupt *)

Lemma push_bytes_frame : forall bs st,
  push_bytes bs st =
    set_SP (SP (push_bytes bs st)) (set_sram (sram (push_bytes bs st)) st).
Proof.
  induction bs as [|b bs IH]; intros st.
  - destruct st; reflexivity.
  - cbn [push_bytes]. rewrite IH at 1. reflexivity.
Qed.

Lemma saveContext_trace st : trace (saveContext st) = trace st ++ [EvSaveContext (SP st)].
Proof. unfold saveContext. rewrite push_bytes_frame. reflexivity. Qed.

Lemma saveContext_os_processes st : os_processes (saveContext st) = os_processes st.
Proof. unfold saveContext. rewrite push_bytes_frame. reflexivity. Qed.

Lemma saveContext_currentProc st : currentProc (saveContext st) = currentProc st.
Proof. unfold saveContext. rewrite push_bytes_frame. reflexivity. Qed.

Lemma saveContext_strategy st :
  currentSchedulingStrategy (saveContext st) = currentSchedulingStrategy st.
Proof. unfold saveContext. rewrite push_bytes_frame. reflexivity. Qed.

Lemma restoreContext_trace st :
  trace (restoreContext st) = trace st ++ [EvRestoreContext (SP st)].
Proof. rewrite restoreContext_closed. reflexivity. Qed.

Lemma restoreContext_os_processes st : os_processes (restoreContext st) = os_processes st.
Proof. rewrite restoreContext_closed. reflexivity. Qed.

Lemma restoreContext_currentProc st : currentProc (restoreContext st) = currentProc st.
Proof. rewrite restoreContext_closed. reflexivity. Qed.

Lemma restoreContext_SP st : SP (restoreContext st) = wrap16 (SP st + 35).
Proof. rewrite restoreContext_closed. reflexivity. Qed.

Lemma sp_after_state_write s next (table : list Process) :
  sp (default zero_slot (alter (with_state s) next table !! next)) =
  sp (default zero_slot (table !! next)).
Proof.
  rewrite list_lookup_alter_eq. destruct (table !! next); reflexivity.
Qed.

Section Interrupt.
Context `{D : Defines} `{Strat : Strategies}.

(** Every branch of the strategy dispatch calls the selector of the
    configured tag. *)
Lemma ISR_dispatch st :
  (if decide (currentSchedulingStrategy st = OS_SS_EVEN) then
     call_selector OS_SS_EVEN os_Scheduler_Even st
   else if decide (currentSchedulingStrategy st = OS_SS_RANDOM) then
     call_selector OS_SS_RANDOM os_Scheduler_Random st
   else if decide (currentSchedulingStrategy st = OS_SS_ROUND_ROBIN) then
     call_selector OS_SS_ROUND_ROBIN os_Scheduler_RoundRobin st
   else if decide (currentSchedulingStrategy st = OS_SS_INACTIVE_AGING) then
     call_selector OS_SS_INACTIVE_AGING os_Scheduler_InactiveAging st
   else
     call_selector OS_SS_RUN_TO_COMPLETION os_Scheduler_RunToCompletion st)
  = call_selector (currentSchedulingStrategy st)
      (selector (currentSchedulingStrategy st)) st.
Proof. destruct (currentSchedulingStrategy st); reflexivity. Qed.

(** The state in which the ISR calls [restoreContext]. *)
Lemma ISR_before_restore st :
  exists mid,
    ISR_TIMER2_COMPA st = restoreContext mid /\
    let cur := currentProc st in
    let table := table_at_selection st in
    let next := selector (currentSchedulingStrategy st) table cur in
    let resume := sp (default zero_slot (table !! next)) in
    currentProc mid = next /\
    os_processes mid = alter (with_state OS_PS_RUNNING) next table /\
    SP mid = resume /\
    trace mid = trace st ++
      [EvSaveContext (SP st);
       EvStoreSP cur (SP (saveContext st));
       EvSetSP BOTTOM_OF_ISR_STACK;
       EvSetState cur OS_PS_READY;
       EvSelect (currentSchedulingStrategy st) table cur;
       EvSetState next OS_PS_RUNNING;
       EvSetSP resume] /\
    sram mid = sram (saveContext st).
Proof.
  unfold ISR_TIMER2_COMPA, table_at_selection. rewrite ISR_dispatch.
  eexists. split; [reflexivity|].
  pose proof (saveContext_trace st) as Htr.
  pose proof (saveContext_os_processes st) as Hpr.
  pose proof (saveContext_currentProc st) as Hcu.
  pose proof (saveContext_strategy st) as Hss.
  set (st1 := saveContext st) in *. clearbody st1.
  unfold call_selector, write_state, write_SP, store_sp, update_slot,
    os_getCurrentProc, os_getProcessSlot.
  cbn [currentProc os_processes SP trace currentSchedulingStrategy sram
       set_currentProc set_os_processes set_SP emit].
  rewrite Htr, Hpr, Hcu, Hss, sp_after_state_write.
  repeat split. rewrite <- !app_assoc. reflexivity.
Qed.

(** C4: the steps of one tick, in order.  The context is saved at the
    stack pointer of the interrupted process, the cursor left by the save
    is stored in its slot, the ISR stack becomes active, the process turns
    READY, the selector of the configured tag is called with the table (in
    which the process is already READY and has its cursor) and the id of
    the interrupted process, the selected process turns RUNNING, its stored
    cursor becomes the stack pointer, and its context is restored from
    there. *)
Theorem ISR_steps_in_order (st : OS) :
  let cur := currentProc st in
  let tag := currentSchedulingStrategy st in
  let saved := SP (saveContext st) in
  let table := table_at_selection st in
  let next := selector tag table cur in
  let resume := sp (default zero_slot (table !! next)) in
  trace (ISR_TIMER2_COMPA st) = trace st ++
    [EvSaveContext (SP st);
     EvStoreSP cur saved;
     EvSetSP BOTTOM_OF_ISR_STACK;
     EvSetState cur OS_PS_READY;
     EvSelect tag table cur;
     EvSetState next OS_PS_RUNNING;
     EvSetSP resume;
     EvRestoreContext resume] /\
  (forall p, os_processes st !! cur = Some p ->
     table !! cur = Some (with_state OS_PS_READY (with_sp saved p))) /\
  currentProc (ISR_TIMER2_COMPA st) = next /\
  os_processes (ISR_TIMER2_COMPA st) = alter (with_state OS_PS_RUNNING) next table /\
  SP (ISR_TIMER2_COMPA st) = wrap16 (resume + 35).
Proof.
  cbv zeta. destruct (ISR_before_restore st) as (mid & -> & Hcur & Htab & Hsp & Htr & _).
  cbv zeta in Hcur, Htab, Hsp, Htr.
  rewrite restoreContext_trace, restoreContext_currentProc,
    restoreContext_os_processes, restoreContext_SP, Htr, Hsp, Hcur, Htab.
  split; [rewrite <- app_assoc; reflexivity|].
  split; [|repeat split].
  intros p Hp. unfold table_at_selection.
  rewrite !list_lookup_alter_eq, Hp. reflexivity.
Qed.

End Interrupt.

(** ** Exactly one RUNNING process *)

Section Running.
Context `{D : Defines} `{Strat : Strategies}.

Lemma os_exec_slot_keeps_running pid programID prio st :
  state (os_getProcessSlot pid st) = OS_PS_UNUSED ->
  let r := snd (os_exec_slot pid programID prio st) in
  length (os_processes r) = length (os_processes st) /\
  currentProc r = currentProc st /\
  forall i, state (os_getProcessSlot i r) = OS_PS_RUNNING <->
            state (os_getProcessSlot i st) = OS_PS_RUNNING.
Proof.
  intros Hun r. subst r.
  destruct (decide (lookup_value programID st = NULL)) as [Hnull|Hres].
  - destruct (os_exec_slot_unresolved pid programID prio st Hnull) as [evs ->].
    cbn [snd]. unfold os_getProcessSlot.
    rewrite leave_os_processes, leave_currentProc, emits_eq. cbn.
    repeat split; tauto.
  - destruct (os_exec_slot_resolved pid programID prio st Hres)
      as (_ & Ht & _ & _ & _ & Hcur).
    unfold os_getProcessSlot in *. rewrite Ht, Hcur, !length_alter.
    split; [reflexivity|]. split; [reflexivity|]. intros i.
    destruct (decide (i = pid)) as [->|Hne].
    + rewrite !list_lookup_alter_eq.
      destruct (os_processes st !! pid) as [p|]; cbn in *; [|tauto].
      rewrite Hun. split; discriminate.
    + rewrite !list_lookup_alter_ne by congruence. tauto.
Qed.

Lemma os_exec_from_keeps_running programID prio : forall todo pid st,
  let r := snd (os_exec_from todo pid programID prio st) in
  length (os_processes r) = length (os_processes st) /\
  currentProc r = currentProc st /\
  forall i, state (os_getProcessSlot i r) = OS_PS_RUNNING <->
            state (os_getProcessSlot i st) = OS_PS_RUNNING.
Proof.
  induction todo as [|todo IH]; intros pid st; cbn [os_exec_from].
  - cbn [snd]. unfold os_getProcessSlot.
    rewrite leave_os_processes, leave_currentProc. repeat split; tauto.
  - destruct (decide (state (os_getProcessSlot pid st) = OS_PS_UNUSED)) as [E|E].
    + apply os_exec_slot_keeps_running. exact E.
    + apply IH.
Qed.

(** [os_exec] neither makes nor unmakes a RUNNING process. *)
Lemma os_exec_keeps_running programID prio st :
  let r := snd (os_exec programID prio st) in
  length (os_processes r) = length (os_processes st) /\
  currentProc r = currentProc st /\
  forall i, state (os_getProcessSlot i r) = OS_PS_RUNNING <->
            state (os_getProcessSlot i st) = OS_PS_RUNNING.
Proof.
  unfold os_exec.
  apply (os_exec_from_keeps_running programID prio MAX_NUMBER_OF_PROCESSES O
           (os_enterCriticalSection st)).
Qed.

Lemma clear_loop n : forall st,
  let r := fold_left (fun st pid => write_state pid OS_PS_UNUSED st) (seq 0 n) st in
  length (os_processes r) = length (os_processes st) /\
  forall i, (i < n)%nat -> state (os_getProcessSlot i r) = OS_PS_UNUSED.
Proof.
  induction n as [|n IH]; intros st; cbv zeta.
  - cbn. split; [reflexivity | intros; lia].
  - rewrite seq_S, fold_left_app. cbn [fold_left Nat.add].
    destruct (IH st) as [Hlen Hclear].
    set (r := fold_left _ (seq 0 n) st) in *. clearbody r.
    unfold write_state, update_slot, os_getProcessSlot in *.
    cbn [os_processes emit set_os_processes]. rewrite length_alter.
    split; [exact Hlen|]. intros i Hi.
    destruct (decide (i = n)) as [->|Hne].
    + rewrite list_lookup_alter_eq. destruct (os_processes r !! n); reflexivity.
    + rewrite list_lookup_alter_ne by congruence. apply Hclear. lia.
Qed.

Lemma autostart_loop progIDs : forall st,
  let r := fold_left
             (fun st progID =>
                if os_checkAutostartProgram progID st
                then snd (os_exec progID DEFAULT_PRIORITY st) else st)
             progIDs st in
  length (os_processes r) = length (os_processes st) /\
  forall i, state (os_getProcessSlot i r) = OS_PS_RUNNING <->
            state (os_getProcessSlot i st) = OS_PS_RUNNING.
Proof.
  induction progIDs as [|progID progIDs IH]; intros st; cbv zeta.
  - cbn. split; [reflexivity | tauto].
  - cbn [fold_left].
    destruct (os_checkAutostartProgram progID st); [|apply IH].
    destruct (os_exec_keeps_running progID DEFAULT_PRIORITY st) as (Hlen & _ & Hrun).
    destruct (IH (snd (os_exec progID DEFAULT_PRIORITY st))) as [IHlen IHrun].
    split; [congruence|]. intros i. rewrite IHrun. apply Hrun.
Qed.

Lemma os_initScheduler_wf st :
  wf_table (os_initScheduler st) <-> wf_table st.
Proof.
  unfold os_initScheduler, wf_table.
  destruct (autostart_loop (seq 0 MAX_NUMBER_OF_PROGRAMS)
              (fold_left (fun st pid => write_state pid OS_PS_UNUSED st)
                 (seq 0 MAX_NUMBER_OF_PROCESSES) st)) as [-> _].
  destruct (clear_loop MAX_NUMBER_OF_PROCESSES st) as [-> _]. tauto.
Qed.

Lemma os_initScheduler_clears st : no_running (os_initScheduler st).
Proof.
  unfold os_initScheduler, no_running. intros i Hi.
  destruct (autostart_loop (seq 0 MAX_NUMBER_OF_PROGRAMS)
              (fold_left (fun st pid => write_state pid OS_PS_UNUSED st)
                 (seq 0 MAX_NUMBER_OF_PROCESSES) st)) as [_ Hrun].
  rewrite Hrun.
  destruct (clear_loop MAX_NUMBER_OF_PROCESSES st) as [_ Hclear].
  rewrite (Hclear i Hi). discriminate.
Qed.

Lemma os_startScheduler_table st :
  os_processes (os_startScheduler st) = alter (with_state OS_PS_RUNNING) O (os_processes st) /\
  currentProc (os_startScheduler st) = O.
Proof.
  unfold os_startScheduler.
  rewrite restoreContext_os_processes, restoreContext_currentProc. split; reflexivity.
Qed.

Lemma os_startScheduler_unique st :
  wf_table st -> no_running st ->
  unique_running (os_startScheduler st) O /\
  currentProc (os_startScheduler st) = O /\
  wf_table (os_startScheduler st).
Proof.
  intros Hwf Hno. destruct (os_startScheduler_table st) as [Ht Hc].
  pose proof processes_fit as Hfit. unfold wf_table in *.
  split; [|split; [exact Hc | rewrite Ht, length_alter; exact Hwf]].
  split; [lia|]. intros i Hi. unfold os_getProcessSlot. rewrite Ht.
  destruct (decide (i = O)) as [->|Hne].
  - rewrite list_lookup_alter_eq.
    destruct (lookup_lt_is_Some_2 (os_processes st) O) as [p ->]; [lia|].
    cbn. tauto.
  - rewrite list_lookup_alter_ne by congruence.
    specialize (Hno i Hi). unfold os_getProcessSlot in Hno. tauto.
Qed.

Lemma ISR_keeps_unique st :
  wf_table st -> strategies_in_range ->
  unique_running st (currentProc st) ->
  unique_running (ISR_TIMER2_COMPA st) (currentProc (ISR_TIMER2_COMPA st)) /\
  wf_table (ISR_TIMER2_COMPA st) /\
  (currentProc (ISR_TIMER2_COMPA st) <> currentProc st ->
   state (os_getProcessSlot (currentProc st) (ISR_TIMER2_COMPA st)) = OS_PS_READY).
Proof.
  intros Hwf Hrange [Hcur Huniq].
  destruct (ISR_before_restore st) as (mid & -> & Hnext & Htab & _).
  cbv zeta in Hnext, Htab.
  unfold unique_running, wf_table, os_getProcessSlot in *.
  rewrite restoreContext_currentProc, restoreContext_os_processes, Hnext, Htab.
  set (table := table_at_selection st) in *.
  assert (Hlen : length table = MAX_NUMBER_OF_PROCESSES).
  { subst table. unfold table_at_selection. rewrite !length_alter. exact Hwf. }
  set (next := selector (currentSchedulingStrategy st) table (currentProc st)) in *.
  assert (Hin : (next < MAX_NUMBER_OF_PROCESSES)%nat) by (apply Hrange; exact Hlen).
  assert (Hcurslot : forall p, table !! currentProc st = Some p -> state p = OS_PS_READY).
  { intros p. subst table. unfold table_at_selection.
    rewrite !list_lookup_alter_eq.
    destruct (os_processes st !! currentProc st); cbn; [|discriminate].
    intros [= <-]. reflexivity. }
  split; [|split].
  - split; [exact Hin|]. intros i Hi.
    destruct (decide (i = next)) as [->|Hne].
    + rewrite list_lookup_alter_eq.
      destruct (lookup_lt_is_Some_2 table next) as [p ->]; [lia|]. cbn. tauto.
    + rewrite list_lookup_alter_ne by congruence.
      destruct (decide (i = currentProc st)) as [->|Hnc].
      * destruct (table !! currentProc st) as [p|] eqn:E; cbn.
        -- rewrite (Hcurslot p eq_refl). split; [discriminate | tauto].
        -- split; [discriminate | tauto].
      * subst table. unfold table_at_selection.
        rewrite !list_lookup_alter_ne by congruence.
        rewrite (Huniq i Hi). tauto.
  - rewrite length_alter. exact Hlen.
  - intros Hne. rewrite list_lookup_alter_ne by congruence.
    destruct (lookup_lt_is_Some_2 table (currentProc st)) as [p Hp]; [lia|].
    rewrite Hp. cbn. apply Hcurslot. exact Hp.
Qed.

(** C8: [os_startScheduler], called on a table without RUNNING process
    (such as the one [os_initScheduler] leaves), makes process 0 the one
    RUNNING process; a tick whose selector answers with a slot of the
    table turns the one RUNNING process READY and leaves exactly the
    selected process RUNNING; [os_exec] changes which processes are
    RUNNING for no slot. *)
Theorem exactly_one_running :
  (forall st, wf_table st -> no_running st ->
     unique_running (os_startScheduler st) O /\
     currentProc (os_startScheduler st) = O /\
     wf_table (os_startScheduler st)) /\
  (forall st, wf_table st ->
     no_running (os_initScheduler st) /\ wf_table (os_initScheduler st)) /\
  (forall st, wf_table st -> strategies_in_range ->
     unique_running st (currentProc st) ->
     unique_running (ISR_TIMER2_COMPA st) (currentProc (ISR_TIMER2_COMPA st)) /\
     wf_table (ISR_TIMER2_COMPA st) /\
     (currentProc (ISR_TIMER2_COMPA st) <> currentProc st ->
      state (os_getProcessSlot (currentProc st) (ISR_TIMER2_COMPA st)) = OS_PS_READY)) /\
  (forall st programID prio,
     let st' := snd (os_exec programID prio st) in
     (forall i, state (os_getProcessSlot i st') = OS_PS_RUNNING <->
                state (os_getProcessSlot i st) = OS_PS_RUNNING) /\
     (wf_table st -> wf_table st') /\
     (forall pid, unique_running st pid -> unique_running st' pid)).
Proof.
  split; [|split; [|split]].
  - apply os_startScheduler_unique.
  - intros st Hwf. split; [apply os_initScheduler_clears|].
    apply os_initScheduler_wf. exact Hwf.
  - apply ISR_keeps_unique.
  - intros st programID prio st'. subst st'.
    destruct (os_exec_keeps_running programID prio st) as (Hlen & _ & Hrun).
    split; [exact Hrun|]. split.
    + unfold wf_table. congruence.
    + intros pid [Hpid Huniq]. split; [exact Hpid|].
      intros i Hi. rewrite Hrun. apply Huniq. exact Hi.
Qed.

End Running.

Lemma stay_or_idle_in_range : @strategies_in_range sample_defines sample_strategies.
Proof.
  intros which table cur Hlen. cbn in Hlen.
  assert (H : (stay_or_idle table cur < 8)%nat).
  { unfold stay_or_idle.
    destruct (decide (state (default zero_slot (table !! cur)) = OS_PS_READY)) as [E|E];
      [|lia].
    destruct (table !! cur) as [p|] eqn:Hp; [|discriminate E].
    apply lookup_lt_Some in Hp. lia. }
  destruct which; exact H.
Qed.

Lemma launched_state_no_running : no_running launched_state.
Proof.
  intros i Hi. cbn in Hi.
  do 8 (destruct i as [|i]; [vm_compute; discriminate|]). lia.
Qed.

Lemma exactly_one_running_witness :
  unique_running (os_startScheduler (os_initScheduler registered_state)) O /\
  unique_running (ISR_TIMER2_COMPA running_state) (currentProc (ISR_TIMER2_COMPA running_state)) /\
  (forall i,
     state (os_getProcessSlot i (snd (os_exec 2%nat 5 running_state))) = OS_PS_RUNNING <->
     state (os_getProcessSlot i running_state) = OS_PS_RUNNING).
Proof.
  destruct (@exactly_one_running sample_defines sample_strategies)
    as (Hstart & Hinit & Htick & Hexec).
  split; [|split].
  - destruct (Hinit registered_state) as [Hno Hwf]; [vm_compute; reflexivity|].
    apply Hstart; assumption.
  - apply Htick; [vm_compute; reflexivity | exact stay_or_idle_in_range |].
    destruct (Hstart launched_state) as (Huniq & Hcur & _);
      [vm_compute; reflexivity | exact launched_state_no_running |].
    unfold running_state. rewrite Hcur. exact Huniq.
  - apply (Hexec running_state 2%nat 5).
Defined.

(** ** The sample configuration at work *)

(** With autostart bits 0 and 2 set, [os_initScheduler] leaves processes
    for programs 0 and 2 READY in slots 0 and 1 and the other slots
    UNUSED. *)
Example autostart_sample :
  map (fun p => (state p, progID p)) (os_processes (os_initScheduler registered_state)) =
  [(OS_PS_READY, 0%nat); (OS_PS_READY, 2%nat)] ++ replicate 6 (OS_PS_UNUSED, 0%nat).
Proof. vm_compute. reflexivity. Qed.

(** A tick on the running sample system keeps the idle process. *)
Example tick_sample :
  currentProc (ISR_TIMER2_COMPA running_state) = O /\
  map state (os_processes (ISR_TIMER2_COMPA running_state)) =
    OS_PS_RUNNING :: replicate 7 OS_PS_UNUSED.
Proof. vm_compute. split; reflexivity. Qed.

(** ** Saving and restoring a context are symmetric *)

Lemma push_bytes_SP : forall bs st,
  wrap16 (SP st) = SP st ->
  SP (push_bytes bs st) = wrap16 (SP st - Z.of_nat (length bs)).
Proof.
  induction bs as [|b bs IH]; intros st Hsp.
  - cbn. rewrite Z.sub_0_r. symmetry. exact Hsp.
  - cbn [push_bytes length]. rewrite IH by apply wrap16_idem.
    cbn [push SP set_SP set_sram]. rewrite wrap16_sub_l. f_equal. lia.
Qed.

Lemma push_bytes_other : forall bs st a,
  wrap16 (SP st) = SP st ->
  (forall j, 0 <= j < Z.of_nat (length bs) -> a <> wrap16 (SP st - j)) ->
  sram (push_bytes bs st) a = sram st a.
Proof.
  induction bs as [|b bs IH]; intros st a Hsp Ha; [reflexivity|].
  cbn [push_bytes length] in *. rewrite IH.
  - cbn [push sram set_SP set_sram]. unfold mem_write.
    destruct (a =? SP st) eqn:E; [|reflexivity].
    apply Z.eqb_eq in E. exfalso. apply (Ha 0); [lia|].
    rewrite Z.sub_0_r, Hsp. exact E.
  - apply wrap16_idem.
  - intros j Hj E. apply (Ha (j + 1)); [lia|].
    rewrite E. cbn [push SP set_SP set_sram]. rewrite wrap16_sub_l. f_equal. lia.
Qed.

Lemma push_bytes_get : forall bs st i b,
  wrap16 (SP st) = SP st -> Z.of_nat (length bs) <= 65536 ->
  bs !! i = Some b ->
  sram (push_bytes bs st) (wrap16 (SP st - Z.of_nat i)) = b.
Proof.
  induction bs as [|b0 bs IH]; intros st i b Hsp Hlen Hi; [discriminate|].
  cbn [push_bytes length] in *. destruct i as [|i]; cbn in Hi.
  - injection Hi as ->. rewrite Z.sub_0_r, Hsp, push_bytes_other.
    + cbn [push sram set_SP set_sram]. unfold mem_write. rewrite Z.eqb_refl. reflexivity.
    + apply wrap16_idem.
    + cbn [push SP set_SP set_sram]. intros j Hj E.
      rewrite wrap16_sub_l in E. rewrite <- Hsp in E at 1.
      replace (SP st) with (SP st - 0) in E at 1 by lia.
      replace (SP st - 1 - j) with (SP st - (1 + j)) in E by lia.
      apply wrap16_sub_inj in E; lia.
  - replace (wrap16 (SP st - Z.of_nat (S i)))
      with (wrap16 (SP (push b0 st) - Z.of_nat i)).
    + apply IH; [apply wrap16_idem | lia | exact Hi].
    + cbn [push SP set_SP set_sram]. rewrite wrap16_sub_l. f_equal. lia.
Qed.

Lemma wrap16_add_as_sub a k : wrap16 (a + k) = wrap16 (a - (65536 - k)).
Proof.
  unfold wrap16. replace (a + k) with (a - (65536 - k) + 1 * 65536) by lia.
  apply Z_mod_plus_full.
Qed.

(** The bytes that pops find after a push of [ctx] are [ctx] in reverse. *)
Lemma stack_bytes_after_push ctx st :
  wrap16 (SP st) = SP st -> Z.of_nat (length ctx) <= 65536 ->
  stack_bytes (length ctx) (push_bytes ctx st) = reverse ctx.
Proof.
  intros Hsp Hlen. apply list_eq. intros i. unfold stack_bytes.
  rewrite list_lookup_fmap.
  destruct (decide (i < length ctx)%nat) as [Hi|Hi].
  - rewrite lookup_seq_lt by exact Hi. cbn [fmap option_fmap option_map].
    rewrite reverse_lookup by exact Hi.
    destruct (lookup_lt_is_Some_2 ctx (length ctx - S i)) as [b Hb]; [lia|].
    rewrite Hb. f_equal.
    rewrite push_bytes_SP, wrap16_add_l by exact Hsp.
    replace (SP st - Z.of_nat (length ctx) + Z.of_nat (1 + i))
      with (SP st - Z.of_nat (length ctx - S i)) by lia.
    apply push_bytes_get; assumption.
  - rewrite lookup_seq_ge by lia. cbn.
    symmetry. apply lookup_ge_None_2. rewrite length_reverse. lia.
Qed.

(** [restoreContext] undoes [saveContext]: registers and status register
    come back, the stack pointer ends above the return address that the
    interrupt had pushed, and execution continues there. *)
Lemma restoreContext_saveContext st :
  wrap16 (SP st) = SP st -> length (regs st) = 32%nat ->
  let st' := restoreContext (saveContext st) in
  regs st' = regs st /\
  SREG st' = SREG st /\
  SP st' = wrap16 (SP st + 2) /\
  PC st' = sram st (wrap16 (SP st + 1)) * 256 + sram st (wrap16 (SP st + 2)).
Proof.
  intros Hsp Hregs st'. subst st'.
  assert (Hlen : length (SREG st :: regs st) = 33%nat) by (cbn; lia).
  assert (Hbytes : stack_bytes 33 (saveContext st) = reverse (SREG st :: regs st)).
  { rewrite <- Hlen. unfold saveContext.
    rewrite <- (stack_bytes_after_push (SREG st :: regs st) st) by (rewrite ?Hlen; lia || exact Hsp).
    unfold stack_bytes. rewrite push_bytes_frame. reflexivity. }
  assert (Hcur : SP (saveContext st) = wrap16 (SP st - 33)).
  { unfold saveContext. cbn [SP emit]. rewrite push_bytes_SP, Hlen by exact Hsp. reflexivity. }
  assert (Hret : forall k, 1 <= k <= 2 ->
            sram (saveContext st) (wrap16 (SP st + k)) = sram st (wrap16 (SP st + k))).
  { intros k Hk. unfold saveContext. cbn [sram emit].
    apply push_bytes_other; [exact Hsp|]. rewrite Hlen. intros j Hj E.
    rewrite wrap16_add_as_sub in E.
    apply wrap16_sub_inj in E; lia. }
  rewrite restoreContext_closed, Hbytes, reverse_involutive, Hcur.
  cbn [regs SREG PC SP set_PC set_SP set_regs set_SREG emit sram hd tail].
  rewrite !wrap16_add_l.
  replace (SP st - 33 + 35) with (SP st + 2) by lia.
  replace (SP st - 33 + 34) with (SP st + 1) by lia.
  rewrite !Hret by lia. repeat split.
Qed.

Section Resume.
Context `{D : Defines} `{Strat : Strategies}.

(** X20: a tick whose selector answers with the interrupted process
    resumes it where it was interrupted, with its registers and status
    register as they were. *)
Lemma ISR_resumes_interrupted_process st :
  wf_table st -> (currentProc st < MAX_NUMBER_OF_PROCESSES)%nat ->
  wrap16 (SP st) = SP st -> length (regs st) = 32%nat ->
  selector (currentSchedulingStrategy st) (table_at_selection st) (currentProc st)
    = currentProc st ->
  let st' := ISR_TIMER2_COMPA st in
  regs st' = regs st /\
  SREG st' = SREG st /\
  SP st' = wrap16 (SP st + 2) /\
  PC st' = sram st (wrap16 (SP st + 1)) * 256 + sram st (wrap16 (SP st + 2)) /\
  currentProc st' = currentProc st /\
  state (os_getProcessSlot (currentProc st) st') = OS_PS_RUNNING.
Proof.
  intros Hwf Hcur Hsp Hregs Hsel st'. subst st'.
  destruct (ISR_before_restore st) as (mid & -> & Hnext & Htab & Hmsp & _ & Hmem).
  cbv zeta in Hnext, Htab, Hmsp. rewrite Hsel in Hnext, Htab, Hmsp.
  destruct (lookup_lt_is_Some_2 (os_processes st) (currentProc st)) as [p Hp].
  { unfold wf_table in Hwf. lia. }
  assert (Hrow : table_at_selection st !! currentProc st =
                 Some (with_state OS_PS_READY (with_sp (SP (saveContext st)) p))).
  { unfold table_at_selection. rewrite !list_lookup_alter_eq, Hp. reflexivity. }
  rewrite Hrow in Hmsp. cbn [default from_option sp with_state with_sp] in Hmsp.
  destruct (restoreContext_saveContext st Hsp Hregs) as (Hr & Hs & Hp' & Hpc).
  rewrite restoreContext_closed in Hr, Hs, Hp', Hpc.
  cbn [regs SREG PC SP set_PC set_SP set_regs set_SREG emit sram] in Hr, Hs, Hp', Hpc.
  unfold os_getProcessSlot.
  rewrite restoreContext_closed.
  cbn [regs SREG PC SP set_PC set_SP set_regs set_SREG emit sram currentProc os_processes].
  unfold stack_bytes in *. rewrite Hmsp, Hmem, Htab, Hnext.
  rewrite list_lookup_alter_eq, Hrow.
  repeat split; assumption.
Qed.

End Resume.

(** ** The button reader, continued *)

Lemma testbit_mod256 x n : 0 <= n < 8 -> Z.testbit (x mod 256) n = Z.testbit x n.
Proof. intros Hn. change 256 with (2 ^ 8). apply Z.mod_pow2_bits_low. lia. Qed.

Lemma os_getInput_mod256 PINC : os_getInput PINC = os_getInput (PINC mod 256).
Proof.
  unfold os_getInput.
  assert (E : Z.land (Z.lnot PINC) 195 = Z.land (Z.lnot (PINC mod 256)) 195).
  { apply Z.bits_inj'. intros n Hn. rewrite !Z.land_spec, !Z.lnot_spec by lia.
    destruct (Z.ltb n 8) eqn:Hlt.
    - apply Z.ltb_lt in Hlt. rewrite testbit_mod256 by lia. reflexivity.
    - apply Z.ltb_ge in Hlt.
      rewrite (Z.bits_above_log2 195 n) by (cbn; lia).
      rewrite !andb_false_r. reflexivity. }
  rewrite E. reflexivity.
Qed.

Lemma button_value_mod256 PINC : button_value PINC = button_value (PINC mod 256).
Proof. unfold button_value, pressed. rewrite !testbit_mod256 by lia. reflexivity. Qed.

Lemma any_pressed_mod256 PINC : any_pressed PINC = any_pressed (PINC mod 256).
Proof. unfold any_pressed. rewrite !testbit_mod256 by lia. reflexivity. Qed.

(** Every byte, checked by evaluation. *)
Lemma os_getInput_bytes :
  forallb (fun n => let x := Z.of_nat n in
             (os_getInput x =? button_value x) &&
             eqb (os_getInput x =? 0) (negb (any_pressed x)))
    (seq 0 256) = true.
Proof. vm_compute. reflexivity. Qed.

Lemma os_getInput_buttons PINC :
  os_getInput PINC = button_value PINC /\
  (os_getInput PINC =? 0) = negb (any_pressed PINC).
Proof.
  rewrite os_getInput_mod256, button_value_mod256, any_pressed_mod256.
  pose proof (Z.mod_pos_bound PINC 256 ltac:(lia)) as Hr.
  pose proof os_getInput_bytes as Hall.
  rewrite forallb_forall in Hall.
  specialize (Hall (Z.to_nat (PINC mod 256))).
  rewrite Z2Nat.id in Hall by lia.
  assert (Hin : In (Z.to_nat (PINC mod 256)) (seq 0 256)).
  { apply in_seq. lia. }
  apply Hall in Hin. cbv zeta in Hin.
  apply andb_true_iff in Hin as [H1 H2].
  apply Z.eqb_eq in H1. apply eqb_prop in H2. split; assumption.
Qed.

(** X1: for every raw register value, [os_getInput] is the sum of the
    button bits: Enter (pin 0) gives 1, Down (pin 1) gives 2, Up (pin 6)
    gives 4 and also 64, ESC (pin 7) gives 8 and also 128; the JTAG pins
    and any higher bits of the raw value have no influence, the result is
    a byte, and it is zero exactly when none of the four buttons is
    pressed. *)
Theorem os_getInput_button_bits (PINC : Z) :
  os_getInput PINC = button_value PINC /\
  0 <= os_getInput PINC < 256 /\
  (os_getInput PINC = 0 <-> any_pressed PINC = false).
Proof.
  destruct (os_getInput_buttons PINC) as [Hv Hz].
  split; [exact Hv|]. split.
  - rewrite Hv. unfold button_value, pressed.
    repeat match goal with |- context [Z.testbit ?x ?i] => destruct (Z.testbit x i) end; lia.
  - rewrite <- Z.eqb_eq, Hz. destruct (any_pressed PINC); cbn; split; congruence.
Qed.

(** X2: [os_initInput] makes the four button pins inputs (direction bit
    clear) with pull-ups (port bit set) and leaves the direction and port
    bits of the four JTAG pins 2 to 5 as they were. *)
Theorem os_initInput_configures_buttons (DDRC PORTC : Z) :
  let r := os_initInput DDRC PORTC in
  (forall pin, pin = 0 \/ pin = 1 \/ pin = 6 \/ pin = 7 ->
     Z.testbit (fst r) pin = false /\ Z.testbit (snd r) pin = true) /\
  (forall pin, 2 <= pin <= 5 ->
     Z.testbit (fst r) pin = Z.testbit DDRC pin /\
     Z.testbit (snd r) pin = Z.testbit PORTC pin).
Proof.
  cbv zeta. unfold os_initInput. cbn [fst snd]. split.
  - intros pin Hp. rewrite Z.land_spec, Z.lor_spec.
    destruct Hp as [ -> | [ -> | [ -> | -> ] ] ]; cbn;
      rewrite ?andb_false_r, ?orb_true_r; split; reflexivity.
  - intros pin Hp. rewrite Z.land_spec, Z.lor_spec.
    assert (Hc : pin = 2 \/ pin = 3 \/ pin = 4 \/ pin = 5) by lia.
    destruct Hc as [ -> | [ -> | [ -> | -> ] ] ];
      change (Z.testbit 60 _) with true; change (Z.testbit 195 _) with false;
      rewrite andb_true_r, orb_false_r; split; reflexivity.
Qed.

Lemma os_waitForInput_spec : forall readings,
  match os_waitForInput readings with
  | Some rest =>
      exists idle PINC, readings = idle ++ PINC :: rest /\
        Forall (fun r => any_pressed r = false) idle /\ any_pressed PINC = true
  | None => Forall (fun r => any_pressed r = false) readings
  end.
Proof.
  induction readings as [|PINC readings IH]; cbn [os_waitForInput]; [constructor|].
  destruct (os_getInput_buttons PINC) as [_ Hz]. rewrite Hz.
  destruct (any_pressed PINC) eqn:Hp; cbn [negb].
  - exists [], PINC. repeat split; [constructor | exact Hp].
  - destruct (os_waitForInput readings) as [rest|].
    + destruct IH as (idle & P & -> & Hidle & HP).
      exists (PINC :: idle), P. repeat split; [constructor; assumption | exact HP].
    + constructor; assumption.
Qed.

Lemma os_waitForNoInput_spec : forall readings,
  match os_waitForNoInput readings with
  | Some rest =>
      exists held PINC, readings = held ++ PINC :: rest /\
        Forall (fun r => any_pressed r = true) held /\ any_pressed PINC = false
  | None => Forall (fun r => any_pressed r = true) readings
  end.
Proof.
  induction readings as [|PINC readings IH]; cbn [os_waitForNoInput]; [constructor|].
  destruct (os_getInput_buttons PINC) as [_ Hz]. rewrite Hz.
  destruct (any_pressed PINC) eqn:Hp; cbn [negb].
  - destruct (os_waitForNoInput readings) as [rest|].
    + destruct IH as (held & P & -> & Hheld & HP).
      exists (PINC :: held), P. repeat split; [constructor; assumption | exact HP].
    + constructor; assumption.
  - exists [], PINC. repeat split; [constructor | exact Hp].
Qed.

(** X3: over any sequence of register readings, [os_waitForInput]
    returns at the first reading in which one of the four buttons is
    pressed, having skipped only readings without a pressed button, and
    keeps polling if there is no such reading; [os_waitForNoInput] returns
    at the first reading without a pressed button, having skipped only
    readings with one. *)
Theorem wait_loops_exit_at_first_change (readings : list Z) :
  match os_waitForInput readings with
  | Some rest =>
      exists idle PINC, readings = idle ++ PINC :: rest /\
        Forall (fun r => any_pressed r = false) idle /\ any_pressed PINC = true
  | None => Forall (fun r => any_pressed r = false) readings
  end /\
  match os_waitForNoInput readings with
  | Some rest =>
      exists held PINC, readings = held ++ PINC :: rest /\
        Forall (fun r => any_pressed r = true) held /\ any_pressed PINC = false
  | None => Forall (fun r => any_pressed r = true) readings
  end.
Proof. split; [apply os_waitForInput_spec | apply os_waitForNoInput_spec]. Qed.

(** ** Critical sections, continued *)







Section LaunchEffects.
Context `{D : Defines}.

(** Every path through the loop of [os_exec] ends in
    [os_leaveCriticalSection], reached with the counter and the two
    registers as they were when the loop began. *)
Lemma os_exec_from_ends_in_leave programID prio : forall todo pid st,
  exists mid,
    snd (os_exec_from todo pid programID prio st) = os_leaveCriticalSection mid /\
    criticalSectionCount mid = criticalSectionCount st /\
    TIMSK2 mid = TIMSK2 st /\
    SREG mid = SREG st.
Proof.
  induction todo as [|todo IH]; intros pid st; cbn [os_exec_from].
  - exists st. repeat split.
  - destruct (decide (state (os_getProcessSlot pid st) = OS_PS_UNUSED)); [|apply IH].
    unfold os_exec_slot. destruct (lookup_shape programID st) as [evs ->].
    destruct (lookup_value programID st =? NULL).
    + eexists. split; [reflexivity|]. rewrite emits_eq. repeat split.
    + destruct (zero_fill _ _ _) as [cursor m].
      eexists. split; [reflexivity|]. rewrite emits_eq. repeat split.
Qed.

(** X5: [os_exec] is balanced: it returns with the nesting counter it was
    called with.  Called outside any critical section it returns with the
    scheduler interrupt enabled, whatever the mask was before; called
    inside one it returns with the interrupt masked. *)
Theorem os_exec_balanced (st : OS) (programID : ProgramID) (prio : Z) :
  0 <= criticalSectionCount st < 256 ->
  criticalSectionCount (snd (os_exec programID prio st)) = criticalSectionCount st /\
  scheduler_masked (snd (os_exec programID prio st)) = negb (criticalSectionCount st =? 0).
Proof.
  intros Hc. unfold os_exec.
  destruct (os_exec_from_ends_in_leave programID prio MAX_NUMBER_OF_PROCESSES O
              (os_enterCriticalSection st)) as (mid & -> & Hcount & Hmask & _).
  rewrite enter_count in Hcount. rewrite enter_TIMSK2 in Hmask.
  assert (Hback : wrap8 (criticalSectionCount mid - 1) = criticalSectionCount st).
  { rewrite Hcount. unfold wrap8. rewrite Zminus_mod_idemp_l.
    replace (criticalSectionCount st + 1 - 1) with (criticalSectionCount st) by lia.
    apply Z.mod_small. exact Hc. }
  unfold scheduler_masked. rewrite leave_count, leave_TIMSK2, Hback, Hmask.
  split; [reflexivity|].
  destruct (criticalSectionCount st =? 0).
  - rewrite Z.lor_spec. change (Z.testbit 2 1) with true. rewrite orb_true_r. reflexivity.
  - rewrite Z.land_spec. change (Z.testbit 253 1) with false. rewrite andb_false_r. reflexivity.
Qed.

Lemma initial_frame_other pid f m a :
  (forall k, 0 <= k <= 34 -> a <> wrap16 (PROCESS_STACK_BOTTOM pid - k)) ->
  snd (initial_frame pid f m) a = m a.
Proof.
  intros Ha. unfold initial_frame.
  rewrite zero_fill_other; [| apply wrap16_idem |].
  - unfold mem_write.
    destruct (a =? wrap16 (wrap16 (PROCESS_STACK_BOTTOM pid) - 1)) eqn:E1.
    { apply Z.eqb_eq in E1. rewrite wrap16_sub_l in E1. exfalso. apply (Ha 1); [lia | exact E1]. }
    destruct (a =? wrap16 (PROCESS_STACK_BOTTOM pid)) eqn:E0; [|reflexivity].
    apply Z.eqb_eq in E0. exfalso. apply (Ha 0); [lia|]. rewrite Z.sub_0_r. exact E0.
  - intros k Hk E. change (Z.of_nat 33) with 33 in Hk. apply (Ha (k + 2)); [lia|].
    rewrite E, wrap16_sub_l.
    replace (wrap16 (wrap16 (PROCESS_STACK_BOTTOM pid) - 1) - 1 - k)
      with (wrap16 (wrap16 (PROCESS_STACK_BOTTOM pid) - 1) - (1 + k)) by lia.
    rewrite wrap16_sub_l.
    replace (wrap16 (PROCESS_STACK_BOTTOM pid) - 1 - (1 + k))
      with (wrap16 (PROCESS_STACK_BOTTOM pid) - (k + 2)) by lia.
    apply wrap16_sub_l.
Qed.

Lemma os_exec_from_sram programID prio : forall todo pid st,
  (pid + todo <= MAX_NUMBER_OF_PROCESSES)%nat ->
  let r := os_exec_from todo pid programID prio st in
  (fst r = INVALID_PROCESS /\ sram (snd r) = sram st) \/
  ((fst r < MAX_NUMBER_OF_PROCESSES)%nat /\
   exists f, sram (snd r) = snd (initial_frame (fst r) f (sram st))).
Proof.
  induction todo as [|todo IH]; intros pid st Hin; cbv zeta; cbn [os_exec_from].
  - left. split; [reflexivity | apply leave_sram].
  - destruct (decide (state (os_getProcessSlot pid st) = OS_PS_UNUSED)); [|apply IH; lia].
    destruct (decide (lookup_value programID st = NULL)) as [Hnull|Hres].
    + destruct (os_exec_slot_unresolved pid programID prio st Hnull) as [evs ->].
      left. cbn [fst snd]. rewrite leave_sram, emits_eq. split; reflexivity.
    + destruct (os_exec_slot_resolved pid programID prio st Hres) as (Hr & _ & Hm & _).
      right. rewrite Hr. split; [lia|]. eexists. exact Hm.
Qed.

(** X6: the only memory [os_exec] writes is the 35-byte frame at the
    bottom of the stack region of the process it returns; when it fails it
    writes no memory at all. *)
Theorem os_exec_writes_only_the_frame (st : OS) (programID : ProgramID) (prio : Z) :
  let r := os_exec programID prio st in
  (fst r = INVALID_PROCESS -> sram (snd r) = sram st) /\
  (forall a,
     (forall k, 0 <= k <= 34 -> a <> wrap16 (PROCESS_STACK_BOTTOM (fst r) - k)) ->
     sram (snd r) a = sram st a).
Proof.
  cbv zeta. unfold os_exec. pose proof processes_fit as Hfit.
  destruct (os_exec_from_sram programID prio MAX_NUMBER_OF_PROCESSES O
              (os_enterCriticalSection st)) as [[Hr Hm]|[Hr [f Hm]]]; [lia | |];
    change (sram (os_enterCriticalSection st)) with (sram st) in Hm; rewrite Hm.
  - split; [reflexivity|]. reflexivity.
  - split; [intros E; lia|]. intros a Ha. apply initial_frame_other. exact Ha.
Qed.

End LaunchEffects.

Lemma os_exec_balanced_witness :
  criticalSectionCount (snd (os_exec 0%nat 2 registered_state))
    = criticalSectionCount registered_state /\
  scheduler_masked (snd (os_exec 0%nat 2 registered_state))
    = negb (criticalSectionCount registered_state =? 0).
Proof. apply (os_exec_balanced registered_state 0%nat 2). cbn. lia. Defined.

(** ** Registry queries *)

Lemma registered_count_app l1 l2 :
  registered_count (l1 ++ l2) = (registered_count l1 + registered_count l2)%nat.
Proof. unfold registered_count. rewrite filter_app, length_app. reflexivity. Qed.

Lemma registered_count_singleton p :
  registered_count [p] = if p =? NULL then O else 1%nat.
Proof.
  unfold registered_count. rewrite filter_cons, filter_nil.
  destruct (Z.eqb_spec p NULL) as [E|E]; destruct (decide (p <> NULL)); try contradiction;
    reflexivity.
Qed.

Lemma registered_count_le l : (registered_count l <= length l)%nat.
Proof. unfold registered_count. apply length_filter. Qed.

Lemma registered_count_insert : forall l s p,
  l !! s = Some NULL -> p <> NULL ->
  registered_count (<[s := p]> l) = S (registered_count l).
Proof.
  unfold registered_count.
  induction l as [|x l IH]; intros s p Hs Hp; [discriminate|].
  destruct s as [|s]; cbn in Hs.
  - injection Hs as ->. cbn [insert list_insert].
    rewrite filter_cons_True by exact Hp.
    rewrite filter_cons_False by (intros E; apply E; reflexivity). reflexivity.
  - cbn [insert list_insert]. rewrite !filter_cons.
    specialize (IH s p Hs Hp).
    destruct (decide (x <> NULL)); cbn [length]; [f_equal|]; exact IH.
Qed.

Section RegistryQueryProperties.
Context `{D : Defines}.

Lemma os_lookupProgramID_from_frame program : forall todo i st,
  (i + todo <= MAX_NUMBER_OF_PROGRAMS)%nat ->
  exists evs,
    snd (os_lookupProgramID_from todo i program st) = emits evs st /\
    Forall access_in_bounds evs /\ Forall (fun e => is_prog_write e = false) evs.
Proof.
  induction todo as [|todo IH]; intros i st Hin; cbn [os_lookupProgramID_from].
  - exists []. repeat split; constructor.
  - unfold read_program. fold (program_word i st).
    destruct (program_word i st =? program).
    + exists [EvProgRead i]. split; [reflexivity|].
      split; repeat constructor. cbn. lia.
    + destruct (IH (S i) (emit (EvProgRead i) st)) as (evs & Hs & Hb & Hw); [lia|].
      exists ([EvProgRead i] ++ evs). rewrite emits_app. split; [exact Hs|].
      split; apply Forall_app; split; try assumption; repeat constructor. cbn. lia.
Qed.

Lemma os_lookupProgramID_from_found program : forall todo i s st,
  (i <= s < i + todo)%nat ->
  os_programs st !! s = Some program ->
  (forall j, (i <= j < s)%nat -> os_programs st !! j <> Some program) ->
  fst (os_lookupProgramID_from todo i program st) = s.
Proof.
  induction todo as [|todo IH]; intros i s st Hin Hs Hbefore; [lia|].
  cbn [os_lookupProgramID_from]. unfold read_program.
  destruct (decide (i = s)) as [->|Hne].
  - rewrite Hs, Z.eqb_refl. reflexivity.
  - destruct (lookup_lt_is_Some_2 (os_programs st) i) as [q Hq].
    { apply lookup_lt_Some in Hs. lia. }
    rewrite Hq. destruct (q =? program) eqn:E.
    + apply Z.eqb_eq in E. subst q. exfalso. apply (Hbefore i); [lia | exact Hq].
    + apply IH; [lia | exact Hs |]. intros j Hj. apply Hbefore. lia.
Qed.

Lemma os_lookupProgramID_from_absent program : forall todo i st,
  (i + todo <= length (os_programs st))%nat ->
  program ∉ os_programs st ->
  fst (os_lookupProgramID_from todo i program st) = INVALID_PROGRAM.
Proof.
  induction todo as [|todo IH]; intros i st Hin Hnot; [reflexivity|].
  cbn [os_lookupProgramID_from]. unfold read_program.
  destruct (lookup_lt_is_Some_2 (os_programs st) i) as [q Hq]; [lia|].
  rewrite Hq. destruct (q =? program) eqn:E.
  - apply Z.eqb_eq in E. subst q. exfalso. apply Hnot.
    apply list_elem_of_lookup_2 in Hq. exact Hq.
  - apply IH; [cbn; lia | exact Hnot].
Qed.

(** X7: [os_lookupProgramID] returns the lowest slot that holds the
    program, and [os_lookupProgramFunction] of that slot gives the program
    back; for a program that is in no slot it returns INVALID_PROGRAM.
    It reads slots inside the array only and writes none. *)
Theorem os_lookupProgramID_first_match (st : OS) (program : Z) :
  wf_registry st ->
  (program ∈ os_programs st ->
   exists s, fst (os_lookupProgramID program st) = s /\
     (s < MAX_NUMBER_OF_PROGRAMS)%nat /\
     (forall j, (j < s)%nat -> os_programs st !! j <> Some program) /\
     lookup_value s st = program) /\
  (program ∉ os_programs st ->
   fst (os_lookupProgramID program st) = INVALID_PROGRAM) /\
  (exists evs, snd (os_lookupProgramID program st) = emits evs st /\
     Forall access_in_bounds evs /\ Forall (fun e => is_prog_write e = false) evs).
Proof.
  intros Hwf. unfold wf_registry in Hwf. unfold os_lookupProgramID.
  split; [|split].
  - intros Hin.
    destruct (list_find_elem_of (fun q => q = program) _ _ Hin eq_refl) as [[s q] Hfind].
    apply list_find_Some in Hfind as (Hs & -> & Hbefore).
    assert (Hlt : (s < MAX_NUMBER_OF_PROGRAMS)%nat) by (apply lookup_lt_Some in Hs; lia).
    assert (Hfirst : forall j, (j < s)%nat -> os_programs st !! j <> Some program).
    { intros j Hj E. exact (Hbefore j program E Hj eq_refl). }
    exists s. split; [|split; [exact Hlt | split; [exact Hfirst|]]].
    + apply os_lookupProgramID_from_found; [lia | exact Hs |].
      intros j Hj. apply Hfirst. lia.
    + unfold lookup_value, os_lookupProgramFunction, read_program.
      destruct (MAX_NUMBER_OF_PROGRAMS <=? s)%nat eqn:E; [apply Nat.leb_le in E; lia|].
      cbn [fst]. rewrite Hs. reflexivity.
  - intros Hnot. apply os_lookupProgramID_from_absent; [cbn; lia | exact Hnot].
  - apply os_lookupProgramID_from_frame. cbn. lia.
Qed.

(** Registering a program that is not yet registered, with a slot free. *)
Lemma os_registerProgram_fresh st program :
  wf_registry st -> program <> NULL ->
  program ∉ os_programs st -> NULL ∈ os_programs st ->
  exists s evs,
    os_registerProgram program st = Some (s, write_program s program (emits evs st)) /\
    (s < MAX_NUMBER_OF_PROGRAMS)%nat /\
    os_programs st !! s = Some NULL /\
    (forall j q, (j < s)%nat -> os_programs st !! j = Some q -> q <> NULL /\ q <> program).
Proof.
  intros Hwf Hp Hnot Hfree. unfold wf_registry in Hwf.
  destruct (list_find_elem_of (stops_scan program) _ _ Hfree) as [[s q] Hfind];
    [left; reflexivity|].
  apply list_find_Some in Hfind as (Hs & Hq & Hbefore).
  assert (Hlt : (s < MAX_NUMBER_OF_PROGRAMS)%nat) by (apply lookup_lt_Some in Hs; lia).
  assert (Hnull : q = NULL).
  { destruct Hq as [E|E]; [exact E|]. subst q. exfalso. apply Hnot.
    apply list_elem_of_lookup_2 in Hs. exact Hs. }
  subst q.
  destruct (os_registerProgram_at_stop program s NULL st) as (evs & Hreg & _);
    try assumption.
  { intros i r Hi Hr. exact (Hbefore i r Hr Hi). }
  exists s, evs. split; [exact Hreg|]. split; [exact Hlt|]. split; [exact Hs|].
  intros j r Hj Hr. specialize (Hbefore j r Hr Hj). unfold stops_scan in Hbefore. tauto.
Qed.

(** X8: registering a program that is not yet registered, while a slot is
    free, puts it into the lowest free slot and changes no other slot;
    afterwards [os_lookupProgramFunction] of the returned id gives the
    program and [os_lookupProgramID] of the program gives the id. *)
Theorem os_registerProgram_then_lookup (st : OS) (program : Z) :
  wf_registry st -> program <> NULL ->
  program ∉ os_programs st -> NULL ∈ os_programs st ->
  exists s st',
    os_registerProgram program st = Some (s, st') /\
    (s < MAX_NUMBER_OF_PROGRAMS)%nat /\
    os_programs st !! s = Some NULL /\
    (forall j, (j < s)%nat -> os_programs st !! j <> Some NULL) /\
    os_programs st' = <[s := program]> (os_programs st) /\
    lookup_value s st' = program /\
    fst (os_lookupProgramID program st') = s.
Proof.
  intros Hwf Hp Hnot Hfree.
  destruct (os_registerProgram_fresh st program Hwf Hp Hnot Hfree)
    as (s & evs & Hreg & Hlt & Hs & Hbefore).
  unfold wf_registry in Hwf.
  assert (Hlen : (s < length (os_programs st))%nat) by lia.
  exists s, (write_program s program (emits evs st)).
  split; [exact Hreg|]. split; [exact Hlt|]. split; [exact Hs|].
  assert (Hprogs : os_programs (write_program s program (emits evs st))
                   = <[s := program]> (os_programs st)).
  { cbn. rewrite emits_os_programs. reflexivity. }
  split; [|split; [exact Hprogs | split]].
  - intros j Hj E. destruct (Hbefore j NULL Hj E) as [Hn _]. apply Hn. reflexivity.
  - unfold lookup_value, os_lookupProgramFunction, read_program.
    destruct (MAX_NUMBER_OF_PROGRAMS <=? s)%nat eqn:E; [apply Nat.leb_le in E; lia|].
    cbn [fst]. rewrite Hprogs, list_lookup_insert_eq by exact Hlen. reflexivity.
  - unfold os_lookupProgramID. apply os_lookupProgramID_from_found; [lia | |].
    + rewrite Hprogs. apply list_lookup_insert_eq. exact Hlen.
    + intros j Hj E. rewrite Hprogs, list_lookup_insert_ne in E by lia.
      destruct (Hbefore j program ltac:(lia) E) as [_ Hne]. apply Hne. reflexivity.
Qed.


Lemma count_loop n : forall st,
  (n <= length (os_programs st))%nat -> (n <= 255)%nat ->
  exists evs,
    fold_left
      (fun acc i =>
         let '(count, st) := acc in
         let '(p, st) := read_program i st in
         if p =? NULL then (count, st) else (wrap8 (count + 1), st))
      (seq 0 n) (0, st)
    = (Z.of_nat (registered_count (take n (os_programs st))), emits evs st) /\
    Forall (fun e => exists i, e = EvProgRead i /\ (i < n)%nat) evs.
Proof.
  induction n as [|n IH]; intros st Hlen Hbyte.
  - exists []. cbn. split; [reflexivity | constructor].
  - destruct (IH st) as (evs & Hfold & Hev); [lia | lia |].
    rewrite seq_S, fold_left_app, Hfold. cbn [fold_left Nat.add].
    destruct (lookup_lt_is_Some_2 (os_programs st) n) as [p Hp]; [lia|].
    unfold read_program. rewrite emits_os_programs, Hp.
    rewrite (take_S_r _ _ _ Hp), registered_count_app.
    pose proof (registered_count_le (take n (os_programs st))) as Hle.
    rewrite length_take in Hle.
    exists (evs ++ [EvProgRead n]). rewrite emits_app. split.
    + rewrite registered_count_singleton.
      destruct (p =? NULL).
      * rewrite Nat.add_0_r. reflexivity.
      * f_equal. unfold wrap8. rewrite Z.mod_small by lia. lia.
    + apply Forall_app. split.
      * eapply Forall_impl; [exact Hev|]. intros e (i & -> & Hi). exists i. split; [reflexivity | lia].
      * repeat constructor. exists n. split; [reflexivity | lia].
Qed.

Lemma os_getNumberOfRegisteredPrograms_counts_aux (st : OS) :
  wf_registry st ->
  exists evs,
    os_getNumberOfRegisteredPrograms st
      = (Z.of_nat (registered_count (os_programs st)), emits evs st).
Proof.
  intros Hwf. unfold wf_registry in Hwf. pose proof programs_fit as Hfit.
  destruct (count_loop MAX_NUMBER_OF_PROGRAMS st) as (evs & Hfold & _); [lia | lia |].
  rewrite take_ge in Hfold by lia. exists evs. exact Hfold.
Qed.

(** X10: [os_getNumberOfRegisteredPrograms] returns the number of slots
    that hold a program (the eight-bit counter cannot overflow), reading
    each slot of the array once and nothing outside it. *)
Theorem os_getNumberOfRegisteredPrograms_counts (st : OS) :
  wf_registry st ->
  exists evs,
    os_getNumberOfRegisteredPrograms st
      = (Z.of_nat (registered_count (os_programs st)), emits evs st) /\
    Forall access_in_bounds evs /\ Forall (fun e => is_prog_write e = false) evs.
Proof.
  intros Hwf. unfold wf_registry in Hwf. pose proof programs_fit as Hfit.
  destruct (count_loop MAX_NUMBER_OF_PROGRAMS st) as (evs & Hfold & Hev); [lia | lia |].
  rewrite take_ge in Hfold by lia.
  exists evs. split; [exact Hfold|].
  split; (eapply Forall_impl; [exact Hev|]); intros e (i & -> & Hi); [exact Hi | reflexivity].
Qed.

(** X11: registering a new program while a slot is free raises the
    number that [os_getNumberOfRegisteredPrograms] reports by one. *)
Theorem os_registerProgram_raises_count (st : OS) (program : Z) :
  wf_registry st -> program <> NULL ->
  program ∉ os_programs st -> NULL ∈ os_programs st ->
  exists s st',
    os_registerProgram program st = Some (s, st') /\
    fst (os_getNumberOfRegisteredPrograms st')
      = fst (os_getNumberOfRegisteredPrograms st) + 1.
Proof.
  intros Hwf Hp Hnot Hfree.
  destruct (os_registerProgram_fresh st program Hwf Hp Hnot Hfree)
    as (s & evs & Hreg & Hlt & Hs & _).
  exists s, (write_program s program (emits evs st)). split; [exact Hreg|].
  assert (Hprogs : os_programs (write_program s program (emits evs st))
                   = <[s := program]> (os_programs st)).
  { cbn. rewrite emits_os_programs. reflexivity. }
  destruct (os_getNumberOfRegisteredPrograms_counts_aux st Hwf) as [evs1 E1].
  destruct (os_getNumberOfRegisteredPrograms_counts_aux
              (write_program s program (emits evs st))) as [evs2 E2].
  { unfold wf_registry in *. rewrite Hprogs, length_insert. exact Hwf. }
  rewrite E1, E2. cbn [fst]. rewrite Hprogs, (registered_count_insert _ _ _ Hs Hp). lia.
Qed.

End RegistryQueryProperties.

Lemma os_lookupProgramID_first_match_witness :
  (4660 ∈ os_programs registered_state ->
   exists s, fst (os_lookupProgramID 4660 registered_state) = s /\
     (s < MAX_NUMBER_OF_PROGRAMS)%nat /\
     (forall j, (j < s)%nat -> os_programs registered_state !! j <> Some 4660) /\
     lookup_value s registered_state = 4660) /\
  (4660 ∉ os_programs registered_state ->
   fst (os_lookupProgramID 4660 registered_state) = INVALID_PROGRAM) /\
  (exists evs, snd (os_lookupProgramID 4660 registered_state) = emits evs registered_state /\
     Forall access_in_bounds evs /\ Forall (fun e => is_prog_write e = false) evs).
Proof. apply (os_lookupProgramID_first_match registered_state 4660). reflexivity. Defined.

Lemma os_registerProgram_then_lookup_witness :
  exists s st',
    os_registerProgram 9999 registered_state = Some (s, st') /\
    (s < MAX_NUMBER_OF_PROGRAMS)%nat /\
    os_programs registered_state !! s = Some NULL /\
    (forall j, (j < s)%nat -> os_programs registered_state !! j <> Some NULL) /\
    os_programs st' = <[s := 9999]> (os_programs registered_state) /\
    lookup_value s st' = 9999 /\
    fst (os_lookupProgramID 9999 st') = s.
Proof.
  apply (os_registerProgram_then_lookup registered_state 9999).
  - reflexivity.
  - discriminate.
  - unfold registered_state. cbn. intros H.
    repeat (apply elem_of_cons in H as [H|H]; [discriminate H|]).
    apply elem_of_nil in H. exact H.
  - unfold registered_state. cbn. apply list_elem_of_further, list_elem_of_here.
Defined.


Lemma os_getNumberOfRegisteredPrograms_counts_witness :
  exists evs,
    os_getNumberOfRegisteredPrograms registered_state
      = (Z.of_nat (registered_count (os_programs registered_state)), emits evs registered_state) /\
    Forall access_in_bounds evs /\ Forall (fun e => is_prog_write e = false) evs.
Proof. apply (os_getNumberOfRegisteredPrograms_counts registered_state). reflexivity. Defined.

(** ** Process-table queries *)

Lemma active_count_cons p l :
  active_count (p :: l) =
  ((if decide (state p = OS_PS_UNUSED) then 0 else 1) + active_count l)%nat.
Proof.
  unfold active_count. rewrite filter_cons.
  destruct (decide (state p = OS_PS_UNUSED)) as [E|E];
    destruct (decide (state p <> OS_PS_UNUSED)); try contradiction; reflexivity.
Qed.

Lemma active_count_le l : (active_count l <= length l)%nat.
Proof. unfold active_count. apply length_filter. Qed.

Lemma active_count_alter (f : Process -> Process) : forall l pid x,
  l !! pid = Some x -> state x = OS_PS_UNUSED -> state (f x) <> OS_PS_UNUSED ->
  active_count (alter f pid l) = S (active_count l).
Proof.
  induction l as [|y l IH]; intros pid x Hl Hx Hfx; [discriminate|].
  destruct pid as [|pid]; cbn in Hl.
  - injection Hl as ->. cbn [alter list_alter]. rewrite !active_count_cons.
    destruct (decide (state (f x) = OS_PS_UNUSED)); [contradiction|].
    destruct (decide (state x = OS_PS_UNUSED)); [reflexivity | contradiction].
  - cbn [alter list_alter]. rewrite !active_count_cons.
    specialize (IH pid x Hl Hx Hfx). rewrite IH. lia.
Qed.

Section TableQueryProperties.
Context `{D : Defines}.

Lemma os_getNumberOfActiveProcs_loop_unfold fuel i num st :
  os_getNumberOfActiveProcs_loop fuel i num st =
  let num :=
    wrap8 (num + (if decide (state (os_getProcessSlot i st) = OS_PS_UNUSED) then 0 else 1)) in
  if (S i <? MAX_NUMBER_OF_PROCESSES)%nat then
    match fuel with
    | O => None
    | S fuel' => os_getNumberOfActiveProcs_loop fuel' (S i) num st
    end
  else Some num.
Proof. destruct fuel; reflexivity. Qed.

Lemma os_getNumberOfActiveProcs_loop_counts : forall k i fuel num st,
  (i + S k = MAX_NUMBER_OF_PROCESSES)%nat -> (k <= fuel)%nat ->
  wf_table st ->
  0 <= num -> num + Z.of_nat (S k) <= 255 ->
  os_getNumberOfActiveProcs_loop fuel i num st
    = Some (num + Z.of_nat (active_count (drop i (os_processes st)))).
Proof.
  induction k as [|k IH]; intros i fuel num st Hi Hfuel Hwf Hnum Hbyte.
  all: assert (Hlen : length (os_processes st) = MAX_NUMBER_OF_PROCESSES) by exact Hwf.
  all: destruct (lookup_lt_is_Some_2 (os_processes st) i) as [p Hp]; [lia|].
  all: rewrite (drop_S _ _ _ Hp), active_count_cons.
  all: rewrite os_getNumberOfActiveProcs_loop_unfold; cbv zeta.
  all: rewrite (slot_lookup _ _ _ Hp).
  all: destruct (decide (state p = OS_PS_UNUSED)) as [Hu|Hu].
  all: unfold wrap8; rewrite Z.mod_small by lia.
  1, 2: destruct (S i <? MAX_NUMBER_OF_PROCESSES)%nat eqn:E; [apply Nat.ltb_lt in E; lia|].
  1, 2: rewrite drop_ge by lia; f_equal; cbn; lia.
  all: destruct (S i <? MAX_NUMBER_OF_PROCESSES)%nat eqn:E; [|apply Nat.ltb_ge in E; lia].
  all: destruct fuel as [|fuel]; [lia|].
  all: rewrite (IH (S i) fuel) by (assumption || lia).
  all: f_equal; lia.
Qed.

Lemma os_getNumberOfActiveProcs_value st :
  wf_table st ->
  os_getNumberOfActiveProcs st = Some (Z.of_nat (active_count (os_processes st))).
Proof.
  intros Hwf. pose proof processes_fit as Hfit. unfold os_getNumberOfActiveProcs.
  rewrite (os_getNumberOfActiveProcs_loop_counts (MAX_NUMBER_OF_PROCESSES - 1) O);
    try assumption; try lia.
  reflexivity.
Qed.

(** X12: [os_getNumberOfActiveProcs] returns the number of slots that are
    not UNUSED, a value between 0 and MAX_NUMBER_OF_PROCESSES (the loop
    ends and the eight-bit counter cannot overflow). *)
Theorem os_getNumberOfActiveProcs_counts (st : OS) :
  wf_table st ->
  os_getNumberOfActiveProcs st = Some (Z.of_nat (active_count (os_processes st))) /\
  (active_count (os_processes st) <= MAX_NUMBER_OF_PROCESSES)%nat.
Proof.
  intros Hwf. split; [apply os_getNumberOfActiveProcs_value; exact Hwf|].
  pose proof (active_count_le (os_processes st)) as Hle. unfold wf_table in Hwf. lia.
Qed.

Lemma os_exec_failure_inv programID prio st :
  wf_table st ->
  fst (os_exec programID prio st) = INVALID_PROCESS ->
  os_processes (snd (os_exec programID prio st)) = os_processes st.
Proof.
  intros Hwf Hfail. pose proof processes_fit as Hfit.
  destruct (first_unused st) as [pid|] eqn:Hfirst.
  - destruct (os_exec_at_first_unused pid programID prio st Hwf Hfirst) as (Hlt & _ & Hexec).
    rewrite Hexec in *.
    destruct (decide (lookup_value programID st = NULL)) as [Hnull|Hres].
    + destruct (os_exec_slot_unresolved pid programID prio (os_enterCriticalSection st))
        as [evs ->]; [rewrite lookup_value_enter; exact Hnull|].
      cbn [snd]. rewrite leave_os_processes, emits_eq. reflexivity.
    + destruct (os_exec_slot_resolved pid programID prio (os_enterCriticalSection st))
        as (Hr & _); [rewrite lookup_value_enter; exact Hres|].
      rewrite Hr in Hfail. lia.
  - rewrite (os_exec_table_full programID prio st Hwf Hfirst). cbn [snd].
    rewrite leave_os_processes. reflexivity.
Qed.

Lemma os_exec_success_table programID prio st :
  wf_table st ->
  fst (os_exec programID prio st) <> INVALID_PROCESS ->
  exists pid p f,
    fst (os_exec programID prio st) = pid /\
    first_unused st = Some pid /\
    os_processes st !! pid = Some p /\ state p = OS_PS_UNUSED /\
    os_processes (snd (os_exec programID prio st)) =
      alter (with_sp f ∘ with_progID programID ∘ with_priority prio ∘ with_state OS_PS_READY)
        pid (os_processes st).
Proof.
  intros Hwf Hok.
  destruct (os_exec_success_inv programID prio st Hwf Hok) as (pid & p0 & Hfirst & _ & Hres & Hexec).
  destruct (os_exec_at_first_unused pid programID prio st Hwf Hfirst) as (_ & (p & Hp & Hun) & _).
  destruct (os_exec_slot_resolved pid programID prio (os_enterCriticalSection st))
    as (Hr & Ht & _); [rewrite lookup_value_enter; exact Hres|].
  change (os_processes (os_enterCriticalSection st)) with (os_processes st) in Ht.
  rewrite !list_alter_alter_eq in Ht. rewrite <- Hexec in Hr, Ht.
  eexists pid, p, _. repeat split; eassumption.
Qed.

(** X13: a successful [os_exec] raises the number that
    [os_getNumberOfActiveProcs] reports by one; a failed one leaves it as
    it was. *)
Theorem os_exec_raises_active_count (st : OS) (programID : ProgramID) (prio : Z) :
  wf_table st ->
  let r := os_exec programID prio st in
  os_getNumberOfActiveProcs (snd r) =
    Some (Z.of_nat (active_count (os_processes st))
          + (if decide (fst r = INVALID_PROCESS) then 0 else 1)) /\
  os_getNumberOfActiveProcs st = Some (Z.of_nat (active_count (os_processes st))).
Proof.
  intros Hwf r. subst r. split; [|apply os_getNumberOfActiveProcs_value; exact Hwf].
  destruct (decide (fst (os_exec programID prio st) = INVALID_PROCESS)) as [Hfail|Hok].
  - pose proof (os_exec_failure_inv programID prio st Hwf Hfail) as Ht.
    rewrite os_getNumberOfActiveProcs_value by (unfold wf_table in *; rewrite Ht; exact Hwf).
    rewrite Ht, Z.add_0_r. reflexivity.
  - destruct (os_exec_success_table programID prio st Hwf Hok)
      as (pid & p & f & _ & _ & Hp & Hun & Ht).
    rewrite os_getNumberOfActiveProcs_value
      by (unfold wf_table in *; rewrite Ht, length_alter; exact Hwf).
    rewrite Ht, (active_count_alter _ _ _ p Hp Hun) by (cbn; discriminate).
    f_equal. lia.
Qed.

End TableQueryProperties.

Lemma os_getNumberOfActiveProcs_counts_witness :
  os_getNumberOfActiveProcs launched_state
    = Some (Z.of_nat (active_count (os_processes launched_state))) /\
  (active_count (os_processes launched_state) <= MAX_NUMBER_OF_PROCESSES)%nat.
Proof. apply (os_getNumberOfActiveProcs_counts launched_state). vm_compute. reflexivity. Defined.

Lemma os_exec_raises_active_count_witness :
  let r := os_exec 2%nat 5 launched_state in
  os_getNumberOfActiveProcs (snd r) =
    Some (Z.of_nat (active_count (os_processes launched_state))
          + (if decide (fst r = INVALID_PROCESS) then 0 else 1)) /\
  os_getNumberOfActiveProcs launched_state
    = Some (Z.of_nat (active_count (os_processes launched_state))).
Proof. apply (os_exec_raises_active_count launched_state 2%nat 5). vm_compute. reflexivity. Defined.

(** ** Autostart *)

Lemma leave_os_autostart st : os_autostart (os_leaveCriticalSection st) = os_autostart st.
Proof. leave_cases. Qed.

Lemma take_take_app {A} (n : nat) (x y : list A) :
  take n (take n x ++ y) = take n (x ++ y).
Proof.
  destruct (decide (length x <= n)%nat) as [Hle|Hgt].
  - rewrite (take_ge x) by exact Hle. reflexivity.
  - rewrite take_app_le by (rewrite length_take; lia).
    rewrite take_take, Nat.min_id, take_app_le by lia. reflexivity.
Qed.

Lemma testbit_of_mask a n :
  0 <= n -> negb (Z.land a (Z.shiftl 1 n) =? 0) = Z.testbit a n.
Proof.
  intros Hn. rewrite Z.shiftl_1_l.
  destruct (Z.testbit a n) eqn:Hbit.
  - destruct (Z.land a (2 ^ n) =? 0) eqn:E; [|reflexivity].
    apply Z.eqb_eq in E.
    assert (Hb : Z.testbit (Z.land a (2 ^ n)) n = true).
    { rewrite Z.land_spec, Hbit, Z.pow2_bits_true by lia. reflexivity. }
    rewrite E, Z.bits_0 in Hb. discriminate Hb.
  - assert (E : Z.land a (2 ^ n) = 0).
    { apply Z.bits_inj'. intros m Hm. rewrite Z.land_spec, Z.bits_0.
      destruct (Z.eq_dec n m) as [<-|Hne].
      - rewrite Hbit. reflexivity.
      - rewrite Z.pow2_bits_false by exact Hne. apply andb_false_r. }
    rewrite E. reflexivity.
Qed.

Section Autostart.
Context `{D : Defines}.

(** X14: [os_checkAutostartProgram] tests bit [programID] of
    [os_autostart], for every program id and every value of the mask. *)
Theorem os_checkAutostartProgram_tests_bit (programID : ProgramID) (st : OS) :
  os_checkAutostartProgram programID st = Z.testbit (os_autostart st) (Z.of_nat programID).
Proof. unfold os_checkAutostartProgram. apply testbit_of_mask. lia. Qed.

(** [os_exec] leaves the registry and the autostart mask alone. *)
Lemma os_exec_from_registry_frame programID prio : forall todo pid st,
  let r := snd (os_exec_from todo pid programID prio st) in
  os_autostart r = os_autostart st /\
  os_programs r = os_programs st /\
  past_programs r = past_programs st.
Proof.
  induction todo as [|todo IH]; intros pid st; cbv zeta; cbn [os_exec_from].
  - cbn [snd]. rewrite leave_os_autostart, leave_os_programs, leave_past_programs.
    repeat split.
  - destruct (decide (state (os_getProcessSlot pid st) = OS_PS_UNUSED)); [|apply IH].
    unfold os_exec_slot. destruct (lookup_shape programID st) as [evs ->].
    destruct (lookup_value programID st =? NULL).
    + cbn [snd]. rewrite leave_os_autostart, leave_os_programs, leave_past_programs, emits_eq.
      repeat split.
    + destruct (zero_fill _ _ _) as [cursor m]. cbn [snd].
      rewrite leave_os_autostart, leave_os_programs, leave_past_programs, emits_eq.
      repeat split.
Qed.

Lemma first_unused_of_shape st started :
  wf_table st -> table_shape (os_processes st) started ->
  (length started < MAX_NUMBER_OF_PROCESSES)%nat ->
  first_unused st = Some (length started).
Proof.
  intros Hwf Hshape Hlt. unfold wf_table in Hwf.
  destruct (lookup_lt_is_Some_2 (os_processes st) (length started)) as [p Hp]; [lia|].
  unfold first_unused.
  assert (Hfind : list_find (fun p => state p = OS_PS_UNUSED) (os_processes st)
                  = Some (length started, p)).
  { apply list_find_Some. split; [exact Hp|]. split.
    - specialize (Hshape _ _ Hp). rewrite lookup_ge_None_2 in Hshape by lia. exact Hshape.
    - intros j q Hq Hj Hun. specialize (Hshape _ _ Hq).
      destruct (lookup_lt_is_Some_2 started j) as [id Hid]; [lia|].
      rewrite Hid in Hshape. destruct Hshape as [Hs _]. congruence. }
  rewrite Hfind. reflexivity.
Qed.

Lemma first_unused_of_full st started :
  wf_table st -> table_shape (os_processes st) started ->
  (MAX_NUMBER_OF_PROCESSES <= length started)%nat ->
  first_unused st = None.
Proof.
  intros Hwf Hshape Hfull. unfold wf_table in Hwf. unfold first_unused.
  assert (Hfind : list_find (fun p => state p = OS_PS_UNUSED) (os_processes st) = None).
  { apply list_find_None, Forall_lookup. intros j q Hq Hun.
    specialize (Hshape _ _ Hq).
    destruct (lookup_lt_is_Some_2 started j) as [id Hid].
    { apply lookup_lt_Some in Hq. lia. }
    rewrite Hid in Hshape. destruct Hshape as [Hs _]. congruence. }
  rewrite Hfind. reflexivity.
Qed.

(** One iteration of the second loop of [os_initScheduler]. *)
Lemma autostart_step st0 st started id :
  wf_table st -> same_registry st st0 ->
  table_shape (os_processes st) started ->
  (length started <= MAX_NUMBER_OF_PROCESSES)%nat ->
  let st' := if os_checkAutostartProgram id st
             then snd (os_exec id DEFAULT_PRIORITY st) else st in
  wf_table st' /\ same_registry st' st0 /\
  table_shape (os_processes st')
    (take MAX_NUMBER_OF_PROCESSES
       (started ++ filter (fun id => os_checkAutostartProgram id st0 = true /\
                                     lookup_value id st0 <> NULL) [id])).
Proof.
  intros Hwf (Hauto & Hprogs & Hpast) Hshape Hlen. cbv zeta.
  assert (Hcheck : os_checkAutostartProgram id st = os_checkAutostartProgram id st0).
  { unfold os_checkAutostartProgram. rewrite Hauto. reflexivity. }
  assert (Hlook : lookup_value id st = lookup_value id st0).
  { apply lookup_value_ext; assumption. }
  rewrite filter_cons, filter_nil, <- Hcheck, <- Hlook.
  assert (Hsame : table_shape (os_processes st)
                    (take MAX_NUMBER_OF_PROCESSES (started ++ []))).
  { rewrite app_nil_r, take_ge by exact Hlen. exact Hshape. }
  destruct (os_checkAutostartProgram id st) eqn:Hc.
  2:{ destruct (decide (false = true /\ lookup_value id st <> NULL)) as [[E _]|_];
        [discriminate E|].
      split; [exact Hwf|]. split; [repeat split; assumption | exact Hsame]. }
  destruct (os_exec_from_registry_frame id DEFAULT_PRIORITY MAX_NUMBER_OF_PROCESSES O
              (os_enterCriticalSection st)) as (Fa & Fp & Fq).
  fold (os_exec id DEFAULT_PRIORITY st) in Fa, Fp, Fq.
  assert (Hreg : same_registry (snd (os_exec id DEFAULT_PRIORITY st)) st0).
  { repeat split; [rewrite Fa | rewrite Fp | rewrite Fq]; assumption. }
  destruct (decide (true = true /\ lookup_value id st <> NULL)) as [[_ Hres]|Hno].
  - destruct (decide (length started < MAX_NUMBER_OF_PROCESSES)%nat) as [Hroom|Hfull].
    + pose proof (first_unused_of_shape st started Hwf Hshape Hroom) as Hfirst.
      destruct (os_exec_at_first_unused _ id DEFAULT_PRIORITY st Hwf Hfirst)
        as (_ & (p & Hp & _) & Hexec).
      destruct (os_exec_slot_resolved (length started) id DEFAULT_PRIORITY
                  (os_enterCriticalSection st)) as (_ & Ht & _);
        [rewrite lookup_value_enter; exact Hres|].
      change (os_processes (os_enterCriticalSection st)) with (os_processes st) in Ht.
      rewrite !list_alter_alter_eq in Ht. rewrite <- Hexec in Ht.
      set (cursor := fst (initial_frame _ _ _)) in Ht. clearbody cursor.
      split; [unfold wf_table in *; rewrite Ht, length_alter; exact Hwf|].
      split; [exact Hreg|].
      rewrite take_ge by (rewrite length_app; cbn; lia).
      rewrite Ht. intros i q Hq.
      destruct (decide (i = length started)) as [->|Hne].
      * rewrite list_lookup_middle by reflexivity.
        rewrite list_lookup_alter_eq, Hp in Hq. injection Hq as <-.
        unfold compose.
        cbn [state progID priority with_sp with_progID with_priority with_state].
        repeat split.
      * rewrite list_lookup_alter_ne in Hq by congruence.
        specialize (Hshape _ _ Hq).
        destruct (decide (i < length started)%nat) as [Hlt|Hge].
        -- rewrite lookup_app_l by exact Hlt. exact Hshape.
        -- rewrite lookup_ge_None_2 by (rewrite length_app; cbn; lia).
           rewrite lookup_ge_None_2 in Hshape by lia. exact Hshape.
    + pose proof (first_unused_of_full st started Hwf Hshape ltac:(lia)) as Hfirst.
      pose proof (os_exec_table_full id DEFAULT_PRIORITY st Hwf Hfirst) as Hexec.
      rewrite Hexec in Hreg. rewrite Hexec. cbn [snd] in Hreg. cbn [snd].
      split; [unfold wf_table in *; rewrite leave_os_processes; exact Hwf|].
      split; [exact Hreg|].
      rewrite leave_os_processes, take_app_le by lia.
      rewrite take_ge by lia. exact Hshape.
  - assert (Hnull : lookup_value id st = NULL).
    { destruct (decide (lookup_value id st = NULL)) as [E|E]; [exact E|].
      exfalso. apply Hno. split; [reflexivity | exact E]. }
    destruct (os_exec_from_unresolved id DEFAULT_PRIORITY MAX_NUMBER_OF_PROCESSES O
                (os_enterCriticalSection st)) as [_ Ht];
      [rewrite lookup_value_enter; exact Hnull|].
    fold (os_exec id DEFAULT_PRIORITY st) in Ht.
    change (os_processes (os_enterCriticalSection st)) with (os_processes st) in Ht.
    split; [unfold wf_table in *; rewrite Ht; exact Hwf|].
    split; [exact Hreg|]. rewrite Ht. exact Hsame.
Qed.

Lemma autostart_fold st0 : forall ids st started,
  wf_table st -> same_registry st st0 ->
  table_shape (os_processes st) started ->
  (length started <= MAX_NUMBER_OF_PROCESSES)%nat ->
  let st' := fold_left
               (fun st progID =>
                  if os_checkAutostartProgram progID st
                  then snd (os_exec progID DEFAULT_PRIORITY st) else st)
               ids st in
  wf_table st' /\
  table_shape (os_processes st')
    (take MAX_NUMBER_OF_PROCESSES
       (started ++ filter (fun id => os_checkAutostartProgram id st0 = true /\
                                     lookup_value id st0 <> NULL) ids)).
Proof.
  induction ids as [|id ids IH]; intros st started Hwf Hreg Hshape Hlen; cbv zeta.
  - cbn [fold_left]. rewrite filter_nil, app_nil_r, take_ge by exact Hlen.
    split; assumption.
  - cbn [fold_left].
    destruct (autostart_step st0 st started id Hwf Hreg Hshape Hlen) as (Hwf1 & Hreg1 & Hshape1).
    destruct (IH _ _ Hwf1 Hreg1 Hshape1) as [Hwf2 Hshape2].
    { rewrite length_take. lia. }
    split; [exact Hwf2|].
    rewrite take_take_app, <- app_assoc in Hshape2.
    change (id :: ids) with ([id] ++ ids). rewrite filter_app. exact Hshape2.
Qed.

Lemma clear_loop_frame pids : forall st,
  same_registry
    (fold_left (fun st pid => write_state pid OS_PS_UNUSED st) pids st) st.
Proof.
  induction pids as [|pid pids IH]; intros st; cbn [fold_left]; [repeat split|].
  destruct (IH (write_state pid OS_PS_UNUSED st)) as (Ha & Hp & Hq).
  repeat split; [rewrite Ha | rewrite Hp | rewrite Hq]; reflexivity.
Qed.

(** X15: after [os_initScheduler] the table holds, from slot 0 upwards,
    one READY process with the default priority for each program whose
    autostart bit is set and that is registered, in ascending order of
    program id and as many as the table has slots; every other slot is
    UNUSED. *)
Theorem os_initScheduler_starts_autostart_programs (st : OS) :
  wf_table st ->
  wf_table (os_initScheduler st) /\
  table_shape (os_processes (os_initScheduler st))
    (take MAX_NUMBER_OF_PROCESSES (autostart_ids st)).
Proof.
  intros Hwf. unfold os_initScheduler, autostart_ids.
  set (cleared := fold_left (fun st pid => write_state pid OS_PS_UNUSED st)
                    (seq 0 MAX_NUMBER_OF_PROCESSES) st).
  destruct (clear_loop MAX_NUMBER_OF_PROCESSES st) as [Hlen Hclear].
  fold cleared in Hlen, Hclear.
  assert (Hwfc : wf_table cleared) by (unfold wf_table in *; lia).
  pose proof (clear_loop_frame (seq 0 MAX_NUMBER_OF_PROCESSES) st) as Hreg.
  fold cleared in Hreg.
  destruct (autostart_fold st (seq 0 MAX_NUMBER_OF_PROGRAMS) cleared [] Hwfc Hreg)
    as [Hwf' Hshape']; [| cbn; lia | split; [exact Hwf' | exact Hshape']].
  intros i p Hp. rewrite lookup_nil.
  assert (Hi : (i < MAX_NUMBER_OF_PROCESSES)%nat).
  { apply lookup_lt_Some in Hp. unfold wf_table in Hwfc. lia. }
  specialize (Hclear i Hi). rewrite (slot_lookup _ _ _ Hp) in Hclear. exact Hclear.
Qed.

End Autostart.

Lemma os_initScheduler_starts_autostart_programs_witness :
  wf_table (os_initScheduler registered_state) /\
  table_shape (os_processes (os_initScheduler registered_state))
    (take MAX_NUMBER_OF_PROCESSES (autostart_ids registered_state)).
Proof.
  apply (os_initScheduler_starts_autostart_programs registered_state). reflexivity.
Defined.

(** ** The stack checksum *)

Lemma lxor_byte a b : 0 <= a < 256 -> 0 <= b < 256 -> wrap8 (Z.lxor a b) = Z.lxor a b.
Proof.
  intros Ha Hb. unfold wrap8. change 256 with (2 ^ 8).
  apply Z.bits_inj'. intros n Hn.
  destruct (Z.ltb n 8) eqn:Hlt.
  - apply Z.ltb_lt in Hlt. apply Z.mod_pow2_bits_low. lia.
  - apply Z.ltb_ge in Hlt. rewrite Z.mod_pow2_bits_high by lia.
    rewrite Z.lxor_spec.
    rewrite <- (Z.mod_small a (2 ^ 8)), <- (Z.mod_small b (2 ^ 8)) by (change (2 ^ 8) with 256; lia).
    rewrite !Z.mod_pow2_bits_high by lia. reflexivity.
Qed.

Lemma os_getStackChecksum_loop_step fuel cursor sum stored m :
  stored < cursor -> 1 <= cursor < 65536 ->
  os_getStackChecksum_loop (S fuel) cursor sum stored m =
  os_getStackChecksum_loop fuel (cursor - 1)
    (wrap8 (Z.lxor sum (m (cursor - 1)))) stored m.
Proof.
  intros Hlt Hc. cbn [os_getStackChecksum_loop].
  destruct (stored <? cursor) eqn:E; [|apply Z.ltb_ge in E; lia].
  rewrite wrap16_small by lia. reflexivity.
Qed.

Lemma os_getStackChecksum_loop_exit fuel cursor sum stored m :
  cursor <= stored -> os_getStackChecksum_loop fuel cursor sum stored m = Some sum.
Proof.
  intros Hle. destruct fuel; cbn [os_getStackChecksum_loop];
    (destruct (stored <? cursor) eqn:E; [apply Z.ltb_lt in E; lia | reflexivity]).
Qed.

(** The loop ends, and its result depends on the memory between the
    stored cursor and the running cursor only. *)
Lemma os_getStackChecksum_loop_local stored m1 m2 : forall fuel cursor sum,
  0 <= stored -> 0 <= cursor < 65536 -> cursor <= Z.of_nat fuel ->
  (forall a, stored <= a < cursor -> m2 a = m1 a) ->
  os_getStackChecksum_loop fuel cursor sum stored m2
    = os_getStackChecksum_loop fuel cursor sum stored m1 /\
  is_Some (os_getStackChecksum_loop fuel cursor sum stored m1).
Proof.
  induction fuel as [|fuel IH]; intros cursor sum Hs Hc Hfuel Hagree.
  - rewrite !os_getStackChecksum_loop_exit by lia. split; [reflexivity | eexists; reflexivity].
  - destruct (Z_lt_le_dec stored cursor) as [Hlt|Hle].
    + rewrite !os_getStackChecksum_loop_step by lia.
      rewrite (Hagree (cursor - 1)) by lia. apply IH; try lia.
      intros a Ha. apply Hagree. lia.
    + rewrite !os_getStackChecksum_loop_exit by lia.
      split; [reflexivity | eexists; reflexivity].
Qed.

(** A run of zero bytes leaves the checksum as it is. *)
Lemma os_getStackChecksum_loop_zeroes stored m : forall k fuel cursor sum,
  0 <= sum < 256 -> stored <= cursor - Z.of_nat k -> 0 <= cursor - Z.of_nat k ->
  cursor < 65536 ->
  (forall j, 1 <= j <= Z.of_nat k -> m (cursor - j) = 0) ->
  os_getStackChecksum_loop (k + fuel) cursor sum stored m
    = os_getStackChecksum_loop fuel (cursor - Z.of_nat k) sum stored m.
Proof.
  induction k as [|k IH]; intros fuel cursor sum Hsum Hs Hk Hc Hzero.
  - cbn [Nat.add]. replace (cursor - Z.of_nat 0) with cursor by lia. reflexivity.
  - cbn [Nat.add]. rewrite os_getStackChecksum_loop_step by lia.
    rewrite (Hzero 1) by lia. rewrite Z.lxor_0_r.
    unfold wrap8 at 1. rewrite Z.mod_small by lia.
    rewrite IH; try lia.
    + f_equal. lia.
    + intros j Hj. replace (cursor - 1 - j) with (cursor - (j + 1)) by lia.
      apply Hzero. lia.
Qed.

Section Checksum.
Context `{D : Defines}.

(** X16: [os_getStackChecksum] returns for every process whose stored
    cursor is a valid address, and its result depends on nothing but the
    stored cursor and the bytes from that cursor up to the bottom of the
    process's stack (the bottom byte is read even when the cursor lies
    above it). *)
Theorem os_getStackChecksum_reads_only_the_stack (pid : ProcessID) (st st2 : OS) :
  0 <= sp (os_getProcessSlot pid st) ->
  sp (os_getProcessSlot pid st2) = sp (os_getProcessSlot pid st) ->
  (forall a, sp (os_getProcessSlot pid st) <= a <= wrap16 (PROCESS_STACK_BOTTOM pid) \/
             a = wrap16 (PROCESS_STACK_BOTTOM pid) ->
             sram st2 a = sram st a) ->
  os_getStackChecksum pid st2 = os_getStackChecksum pid st /\
  is_Some (os_getStackChecksum pid st).
Proof.
  intros Hs Hsame Hagree. unfold os_getStackChecksum.
  pose proof (wrap16_range (PROCESS_STACK_BOTTOM pid)) as Hb.
  rewrite Hsame, (Hagree (wrap16 (PROCESS_STACK_BOTTOM pid))) by (right; reflexivity).
  apply os_getStackChecksum_loop_local; try lia.
  intros a Ha. apply Hagree. left. lia.
Qed.

(** X17: the checksum of a freshly launched process, whose stack region
    lies at least 35 bytes above address zero, is the exclusive or of the
    two bytes of its entry point and of the byte at its stack cursor, the
    first free byte below the frame: the 33 zero bytes of the frame do
    not contribute. *)
Theorem os_getStackChecksum_of_new_process (st : OS) (programID : ProgramID) (prio : Z) :
  wf_table st -> wf_registry st -> pointers_fit st ->
  fst (os_exec programID prio st) <> INVALID_PROCESS ->
  let pid := fst (os_exec programID prio st) in
  let st' := snd (os_exec programID prio st) in
  let f := lookup_value programID st in
  let bottom := wrap16 (PROCESS_STACK_BOTTOM pid) in
  35 <= bottom ->
  0 <= sram st (bottom - 35) < 256 ->
  os_getStackChecksum pid st' =
    Some (Z.lxor (Z.lxor (f mod 256) (f / 256)) (sram st (bottom - 35))).
Proof.
  intros Hwf Hreg Hfit Hok.
  destruct (os_exec_success_inv programID prio st Hwf Hok)
    as (pid0 & p & _ & Hp & Hres & Hexec).
  rewrite Hexec. clear Hexec Hok.
  destruct (os_exec_slot_resolved pid0 programID prio (os_enterCriticalSection st))
    as (Hr & Ht & Hm & _); [rewrite lookup_value_enter; exact Hres|].
  rewrite lookup_value_enter in Ht, Hm.
  change (sram (os_enterCriticalSection st)) with (sram st) in Ht, Hm.
  change (os_processes (os_enterCriticalSection st)) with (os_processes st) in Ht.
  rewrite Hr. cbv zeta.
  set (st' := snd (os_exec_slot pid0 programID prio (os_enterCriticalSection st))) in *.
  set (f := lookup_value programID st) in *.
  set (bottom := wrap16 (PROCESS_STACK_BOTTOM pid0)).
  intros Hroom Hbyte.
  pose proof (lookup_value_range programID st Hreg Hfit) as Hf. fold f in Hf.
  pose proof (wrap16_range (PROCESS_STACK_BOTTOM pid0)) as Hb. fold bottom in Hb.
  destruct (initial_frame_layout pid0 f (sram st) Hf) as (Hcur & Hlo & Hhi & Hzero).
  fold bottom in Hcur, Hlo, Hhi, Hzero.
  assert (Hother : snd (initial_frame pid0 f (sram st)) (bottom - 35) = sram st (bottom - 35)).
  { apply initial_frame_other. intros k Hk E.
    rewrite <- (wrap16_small (bottom - 35)) in E by lia.
    unfold bottom in E. rewrite wrap16_sub_l in E.
    apply wrap16_sub_inj in E; lia. }
  set (frame := initial_frame pid0 f (sram st)) in *. clearbody frame.
  assert (Hsp : sp (os_getProcessSlot pid0 st') = bottom - 35).
  { unfold os_getProcessSlot. rewrite Ht, !list_lookup_alter_eq, Hp.
    cbn [fmap option_fmap option_map default from_option sp with_sp with_progID with_priority with_state].
    rewrite Hcur. apply wrap16_small. lia. }
  rewrite wrap16_small in Hhi by lia.
  assert (Hz : forall j, 1 <= j <= Z.of_nat 33 -> snd frame (bottom - 1 - j) = 0).
  { intros j Hj. change (Z.of_nat 33) with 33 in Hj.
    replace (bottom - 1 - j) with (bottom - (j + 1)) by lia.
    rewrite <- (wrap16_small (bottom - (j + 1))) by lia. apply Hzero. lia. }
  assert (Hdiv : 0 <= f / 256 < 256).
  { split; [apply Z.div_pos; lia | apply Z.div_lt_upper_bound; lia]. }
  assert (Hmod : 0 <= f mod 256 < 256) by (apply Z.mod_pos_bound; lia).
  unfold os_getStackChecksum. fold bottom. rewrite Hsp, Hm, Hlo.
  replace (Z.to_nat bottom) with (S (33 + S (Z.to_nat bottom - 35)))%nat by lia.
  rewrite os_getStackChecksum_loop_step by lia.
  rewrite Hhi, lxor_byte by assumption.
  assert (Hsum : 0 <= Z.lxor (f mod 256) (f / 256) < 256).
  { rewrite <- lxor_byte by assumption. apply wrap8_range. }
  rewrite os_getStackChecksum_loop_zeroes; try lia; try exact Hz.
  change (Z.of_nat 33) with 33.
  rewrite os_getStackChecksum_loop_step by lia.
  replace (bottom - 1 - 33 - 1) with (bottom - 35) by lia.
  rewrite Hother, lxor_byte by assumption.
  apply os_getStackChecksum_loop_exit. lia.
Qed.

End Checksum.

Lemma enter_sram st : sram (os_enterCriticalSection st) = sram st.
Proof. reflexivity. Qed.

Lemma os_getStackChecksum_reads_only_the_stack_witness :
  os_getStackChecksum 0%nat (os_enterCriticalSection launched_state)
    = os_getStackChecksum 0%nat launched_state /\
  is_Some (os_getStackChecksum 0%nat launched_state).
Proof.
  apply (os_getStackChecksum_reads_only_the_stack 0%nat launched_state
           (os_enterCriticalSection launched_state)).
  - vm_compute. discriminate.
  - rewrite slot_enter. reflexivity.
  - intros a _. rewrite enter_sram. reflexivity.
Defined.

Lemma os_getStackChecksum_of_new_process_witness :
  os_getStackChecksum (fst (os_exec 2%nat 5 registered_state))
    (snd (os_exec 2%nat 5 registered_state)) =
  Some (Z.lxor (Z.lxor (lookup_value 2%nat registered_state mod 256)
                       (lookup_value 2%nat registered_state / 256))
               (sram registered_state
                  (wrap16 (PROCESS_STACK_BOTTOM (fst (os_exec 2%nat 5 registered_state))) - 35))).
Proof.
  apply (os_getStackChecksum_of_new_process registered_state 2%nat 5).
  - reflexivity.
  - reflexivity.
  - unfold pointers_fit, registered_state. cbn.
    repeat constructor; unfold NULL; lia.
  - vm_compute. discriminate.
  - apply Z.leb_le. vm_compute. reflexivity.
  - split; [apply Z.leb_le | apply Z.ltb_lt]; vm_compute; reflexivity.
Defined.

(** ** The tick, continued *)

Lemma restoreContext_strategy st :
  currentSchedulingStrategy (restoreContext st) = currentSchedulingStrategy st.
Proof. rewrite restoreContext_closed. reflexivity. Qed.

Lemma lookup_after_alter (f : Process -> Process) k (l : list Process) i p :
  l !! i = Some p ->
  exists p', alter f k l !! i = Some p' /\ (p' = p \/ (k = i /\ p' = f p)).
Proof.
  intros Hp. destruct (decide (k = i)) as [->|Hne].
  - rewrite list_lookup_alter_eq, Hp. eexists. split; [reflexivity|]. right. split; reflexivity.
  - rewrite list_lookup_alter_ne, Hp by exact Hne. eexists. split; [reflexivity|]. left. reflexivity.
Qed.

Section Tick.
Context `{D : Defines} `{Strat : Strategies}.

Lemma ISR_keeps_strategy st :
  currentSchedulingStrategy (ISR_TIMER2_COMPA st) = currentSchedulingStrategy st.
Proof.
  unfold ISR_TIMER2_COMPA. rewrite ISR_dispatch, restoreContext_strategy.
  pose proof (saveContext_strategy st) as Hss.
  set (st1 := saveContext st) in *. clearbody st1.
  unfold call_selector, write_state, write_SP, store_sp, update_slot.
  cbn [currentSchedulingStrategy set_currentProc set_os_processes set_SP emit].
  exact Hss.
Qed.

(** X18: [os_setSchedulingStrategy] changes the strategy tag and nothing
    of the process table or the current process; the next tick calls the
    selector of the new tag and leaves the tag in place. *)
Theorem strategy_takes_effect_at_next_tick (st : OS) (strategy : SchedulingStrategy) :
  let st1 := os_setSchedulingStrategy strategy st in
  os_getSchedulingStrategy st1 = strategy /\
  os_processes st1 = os_processes st /\
  os_getCurrentProc st1 = os_getCurrentProc st /\
  os_getCurrentProc (ISR_TIMER2_COMPA st1)
    = selector strategy (table_at_selection st1) (os_getCurrentProc st) /\
  EvSelect strategy (table_at_selection st1) (os_getCurrentProc st)
    ∈ trace (ISR_TIMER2_COMPA st1) /\
  os_getSchedulingStrategy (ISR_TIMER2_COMPA st1) = strategy.
Proof.
  cbv zeta. unfold os_getSchedulingStrategy, os_getCurrentProc.
  split; [reflexivity|]. split; [reflexivity|]. split; [reflexivity|].
  rewrite ISR_keeps_strategy.
  destruct (ISR_before_restore (os_setSchedulingStrategy strategy st))
    as (mid & -> & Hnext & _ & _ & Htr & _).
  cbv zeta in Hnext, Htr.
  rewrite restoreContext_currentProc, restoreContext_trace, Hnext, Htr.
  split; [reflexivity|]. split; [|reflexivity].
  apply elem_of_app. left. apply elem_of_app. right.
  do 4 apply list_elem_of_further. apply list_elem_of_here.
Qed.

(** X19: a tick keeps the size of the process table and alters neither
    the priority nor the program id of any process, nor the stored stack
    cursor of any process other than the interrupted one. *)
Theorem ISR_changes_only_state_and_cursor (st : OS) :
  length (os_processes (ISR_TIMER2_COMPA st)) = length (os_processes st) /\
  forall i p, os_processes st !! i = Some p ->
    exists p', os_processes (ISR_TIMER2_COMPA st) !! i = Some p' /\
      priority p' = priority p /\ progID p' = progID p /\
      (i <> currentProc st -> sp p' = sp p).
Proof.
  destruct (ISR_before_restore st) as (mid & -> & _ & Htab & _).
  cbv zeta in Htab. rewrite restoreContext_os_processes, Htab.
  unfold table_at_selection. rewrite !length_alter. split; [reflexivity|].
  intros i p Hp.
  destruct (lookup_after_alter (with_sp (SP (saveContext st))) (currentProc st) _ _ _ Hp)
    as (p1 & Hp1 & H1).
  destruct (lookup_after_alter (with_state OS_PS_READY) (currentProc st) _ _ _ Hp1)
    as (p2 & Hp2 & H2).
  destruct (lookup_after_alter (with_state OS_PS_RUNNING)
              (selector (currentSchedulingStrategy st)
                 (alter (with_state OS_PS_READY) (currentProc st)
                    (alter (with_sp (SP (saveContext st))) (currentProc st)
                       (os_processes st))) (currentProc st)) _ _ _ Hp2)
    as (p3 & Hp3 & H3).
  exists p3. split; [exact Hp3|].
  destruct H1 as [->|[E1 ->]]; destruct H2 as [->|[E2 ->]]; destruct H3 as [->|[E3 ->]];
    cbn; repeat split; intros; congruence.
Qed.

End Tick.

Lemma ISR_resumes_interrupted_process_witness :
  let st' := ISR_TIMER2_COMPA running_state in
  regs st' = regs running_state /\
  SREG st' = SREG running_state /\
  SP st' = wrap16 (SP running_state + 2) /\
  PC st' = sram running_state (wrap16 (SP running_state + 1)) * 256
           + sram running_state (wrap16 (SP running_state + 2)) /\
  currentProc st' = currentProc running_state /\
  state (os_getProcessSlot (currentProc running_state) st') = OS_PS_RUNNING.
Proof.
  apply (ISR_resumes_interrupted_process running_state).
  - vm_compute. reflexivity.
  - apply Nat.ltb_lt. vm_compute. reflexivity.
  - vm_compute. reflexivity.
  - vm_compute. reflexivity.
  - vm_compute. reflexivity.
Defined.

Lemma os_registerProgram_raises_count_witness :
  exists s st',
    os_registerProgram 9999 registered_state = Some (s, st') /\
    fst (os_getNumberOfRegisteredPrograms st')
      = fst (os_getNumberOfRegisteredPrograms registered_state) + 1.
Proof.
  apply (os_registerProgram_raises_count registered_state 9999).
  - reflexivity.
  - discriminate.
  - unfold registered_state. cbn. intros H.
    repeat (apply elem_of_cons in H as [H|H]; [discriminate H|]).
    apply elem_of_nil in H. exact H.
  - unfold registered_state. cbn. apply list_elem_of_further, list_elem_of_here.
Defined.
